(** * ReportClaw: annual-report section extraction and text reflow

    A shallow embedding of [src/reportclaw/main.py] (class
    [AnnualReportParser]) and of the text reflow of
    [src/reportclaw/daily_report.py] ([safe_block] and its nested
    [clean_text_for_pdf]), with the properties the specification states
    about them.

    Python strings are sequences of Unicode code points: a [str] is a
    [list N].  The regular expressions of the source are terms of a small
    regex type, run by a backtracking matcher that follows the search order
    of Python's [re] (leftmost start, alternatives left to right, greedy
    repetition giving back one character at a time). *)

From Stdlib Require Import String Ascii List NArith ZArith Arith Bool Lia.
Import ListNotations.

Set Implicit Arguments.

(* ================================================================= *)
(** * Characters and strings *)

Abbreviation char := N (only parsing).
Abbreviation str := (list N) (only parsing).

(** Source literals are written as UTF-8 string literals and decoded to
    code points by [U]. *)
Fixpoint utf8_go (s : string) (need : nat) (acc : N) : str :=
  match s with
  | EmptyString => []
  | String a s' =>
      let b := N_of_ascii a in
      match need with
      | O =>
          if (b <? 128)%N then b :: utf8_go s' 0 0%N
          else if (b <? 224)%N then utf8_go s' 1 (b - 192)%N
          else if (b <? 240)%N then utf8_go s' 2 (b - 224)%N
          else utf8_go s' 3 (b - 240)%N
      | S O => (acc * 64 + (b - 128))%N :: utf8_go s' 0 0%N
      | S n => utf8_go s' n (acc * 64 + (b - 128))%N
      end
  end.

Definition U (s : string) : str := utf8_go s 0 0%N.

Definition LF : char := 10%N.     (* "\n" *)
Definition CR : char := 13%N.     (* "\r" *)
Definition FF : char := 12%N.     (* "\x0c" *)
Definition SP : char := 32%N.     (* " " *)
Definition NBSP : char := 160%N.  (* U+00A0, no-break space *)
Definition ZWSP : char := 8203%N. (* U+200B, zero-width space *)

Definition in_ranges (rs : list (N * N)) (c : char) : bool :=
  existsb (fun r => (fst r <=? c)%N && (c <=? snd r)%N) rs.

(** [str.isspace] on one character, which is also what [\s] matches in a
    [str] pattern and what [str.strip()] removes. *)
Definition space_ranges : list (N * N) :=
  [(9, 13); (28, 32); (133, 133); (160, 160); (5760, 5760); (8192, 8202);
   (8232, 8233); (8239, 8239); (8287, 8287); (12288, 12288)]%N.

Definition is_space (c : char) : bool := in_ranges space_ranges c.

(** [\d] in a [str] pattern: every Unicode decimal digit (category Nd,
    Unicode 14).  Every range starts at a digit zero. *)
Definition decimal_ranges : list (N * N) :=
  [(48, 57); (1632, 1641); (1776, 1785); (1984, 1993); (2406, 2415);
   (2534, 2543); (2662, 2671); (2790, 2799); (2918, 2927); (3046, 3055);
   (3174, 3183); (3302, 3311); (3430, 3439); (3558, 3567); (3664, 3673);
   (3792, 3801); (3872, 3881); (4160, 4169); (4240, 4249); (6112, 6121);
   (6160, 6169); (6470, 6479); (6608, 6617); (6784, 6793); (6800, 6809);
   (6992, 7001); (7088, 7097); (7232, 7241); (7248, 7257); (42528, 42537);
   (43216, 43225); (43264, 43273); (43472, 43481); (43504, 43513);
   (43600, 43609); (44016, 44025); (65296, 65305); (66720, 66729);
   (68912, 68921); (69734, 69743); (69872, 69881); (69942, 69951);
   (70096, 70105); (70384, 70393); (70736, 70745); (70864, 70873);
   (71248, 71257); (71360, 71369); (71472, 71481); (71904, 71913);
   (72016, 72025); (72784, 72793); (73040, 73049); (73120, 73129);
   (92768, 92777); (92864, 92873); (93008, 93017); (120782, 120831);
   (123200, 123209); (123632, 123641); (125264, 125273);
   (130032, 130041)]%N.

Definition is_decimal (c : char) : bool := in_ranges decimal_ranges c.

(** The characters [str.isdigit] accepts beyond the decimal digits
    (superscripts, circled digits and the like). *)
Definition other_digit_ranges : list (N * N) :=
  [(178, 179); (185, 185); (4969, 4977); (6618, 6618); (8304, 8304);
   (8308, 8313); (8320, 8329); (9312, 9320); (9332, 9340); (9352, 9360);
   (9450, 9450); (9461, 9469); (9471, 9471); (10102, 10110);
   (10112, 10120); (10122, 10130); (68160, 68163); (69216, 69224);
   (69714, 69722); (127232, 127242)]%N.

Definition is_digit_char (c : char) : bool :=
  is_decimal c || in_ranges other_digit_ranges c.

(** Value of a decimal digit, as [int()] reads it. *)
Definition digit_value (c : char) : nat :=
  match find (fun r => (fst r <=? c)%N && (c <=? snd r)%N) decimal_ranges with
  | Some r => N.to_nat ((c - fst r) mod 10)
  | None => 0
  end.

(** [int(s)] for a string of decimal digits. *)
Definition int_of_digits (s : str) : nat :=
  fold_left (fun acc c => 10 * acc + digit_value c) s 0.

Definition chr_eqb (a b : char) : bool := (a =? b)%N.

Fixpoint str_eqb (a b : str) : bool :=
  match a, b with
  | [], [] => true
  | x :: a', y :: b' => chr_eqb x y && str_eqb a' b'
  | _, _ => false
  end.

(** [t.startswith(p)] *)
Fixpoint startswith (p t : str) : bool :=
  match p, t with
  | [], _ => true
  | x :: p', y :: t' => chr_eqb x y && startswith p' t'
  | _ :: _, [] => false
  end.

(** [t.endswith(p)] *)
Definition endswith (p t : str) : bool := startswith (rev p) (rev t).

(** [sub in t] *)
Fixpoint str_in (sub t : str) : bool :=
  startswith sub t ||
  match t with
  | [] => false
  | _ :: t' => str_in sub t'
  end.

(** [t[a:b]] for non-negative [a] and [b]. *)
Definition slice (t : str) (a b : nat) : str := firstn (b - a) (skipn a t).

(** [t[a:]] *)
Definition slice_from (t : str) (a : nat) : str := skipn a t.

Fixpoint lstrip (t : str) : str :=
  match t with
  | c :: t' => if is_space c then lstrip t' else t
  | [] => []
  end.

Definition rstrip (t : str) : str := rev (lstrip (rev t)).

(** [t.strip()] *)
Definition strip (t : str) : str := rstrip (lstrip t).

(** [t.replace(old, new)] for a non-empty [old]: occurrences are replaced
    from the left and do not overlap; [skip] counts the characters of an
    occurrence still to be passed over. *)
Fixpoint replace_go (old new : str) (skip : nat) (t : str) : str :=
  match t with
  | [] => []
  | c :: t' =>
      match skip with
      | S k => replace_go old new k t'
      | O =>
          if startswith old t
          then new ++ replace_go old new (length old - 1) t'
          else c :: replace_go old new 0 t'
      end
  end.

Definition replace (old new t : str) : str := replace_go old new 0 t.

(** [t.split(sep)] for a one-character separator. *)
Fixpoint split (sep : char) (t : str) : list str :=
  match t with
  | [] => [[]]
  | c :: t' =>
      if chr_eqb c sep then [] :: split sep t'
      else match split sep t' with
           | l :: ls => (c :: l) :: ls
           | [] => [[c]]
           end
  end.

(** [sep.join(parts)] *)
Fixpoint join (sep : str) (parts : list str) : str :=
  match parts with
  | [] => []
  | [p] => p
  | p :: ps => p ++ sep ++ join sep ps
  end.

(** Line boundaries of [str.splitlines]. *)
Definition is_linebreak (c : char) : bool :=
  in_ranges [(10, 13); (28, 30); (133, 133); (8232, 8233)]%N c.

(** [t.splitlines()]: "\r\n" is one boundary, and a final boundary opens
    no empty last line.  [cur] is the line being read, reversed. *)
Fixpoint splitlines_go (t : str) (cur : str) : list str :=
  match t with
  | [] => match cur with [] => [] | _ => [rev cur] end
  | c :: t' =>
      if is_linebreak c then
        match t' with
        | d :: t'' =>
            if chr_eqb c CR && chr_eqb d LF
            then rev cur :: splitlines_go t'' []
            else rev cur :: splitlines_go t' []
        | [] => [rev cur]
        end
      else splitlines_go t' (c :: cur)
  end.

Definition splitlines (t : str) : list str := splitlines_go t [].

(** [s.isdigit()] *)
Definition isdigit (s : str) : bool :=
  match s with
  | [] => false
  | _ => forallb is_digit_char s
  end.

(** [any(kw in title for kw in kws)] *)
Definition any_in (kws : list str) (title : str) : bool :=
  existsb (fun kw => str_in kw title) kws.

(** Truth value of a string. *)
Definition truthy (t : str) : bool :=
  match t with [] => false | _ => true end.

(* ================================================================= *)
(** * Regular expressions *)

(** The fragment the source uses.  [Rep cls lo hi] is a greedy repetition
    of a character class: [x], [x*], [x+], [x{m,n}]. *)
Inductive regex : Type :=
| Lit (s : str)
| Rep (cls : char -> bool) (lo : nat) (hi : option nat)
| Bol
| Eol
| Cat (r1 r2 : regex)
| Alt (r1 r2 : regex)
| Grp (n : nat) (r : regex).

Definition One (cls : char -> bool) : regex := Rep cls 1 (Some 1).
Definition Star (cls : char -> bool) : regex := Rep cls 0 None.
Definition Plus (cls : char -> bool) : regex := Rep cls 1 None.

Definition captures := list (nat * (nat * nat)).

Record match_obj : Type := MatchObj {
  m_start : nat;
  m_end : nat;
  m_caps : captures
}.

(** Length of the longest run of [cls] characters at the head of [rest],
    at most [cap]. *)
Fixpoint run_len (cls : char -> bool) (rest : str) (cap : option nat) : nat :=
  match rest with
  | c :: rest' =>
      if cls c then
        match cap with
        | Some O => O
        | Some (S h) => S (run_len cls rest' (Some h))
        | None => S (run_len cls rest' None)
        end
      else O
  | [] => O
  end.

(** Greedy choice: [f n], then [f (n-1)], down to [f lo]. *)
Fixpoint try_down (A : Type) (n lo : nat) (f : nat -> option A) : option A :=
  match f n with
  | Some x => Some x
  | None =>
      match n with
      | O => None
      | S n' => if lo <=? n' then try_down n' lo f else None
      end
  end.

(** [rmatch r pos rest caps k]: match [r] at offset [pos], where [rest] is
    the input from [pos] on, then continue with [k]; [None] when every
    choice fails. *)
Fixpoint rmatch (A : Type) (r : regex) (pos : nat) (rest : str) (caps : captures)
    (k : nat -> str -> captures -> option A) : option A :=
  match r with
  | Lit s =>
      if startswith s rest
      then k (pos + length s) (skipn (length s) rest) caps
      else None
  | Rep cls lo hi =>
      let n := run_len cls rest hi in
      if n <? lo then None
      else try_down n lo (fun j => k (pos + j) (skipn j rest) caps)
  | Bol => if pos =? 0 then k pos rest caps else None
  | Eol =>
      match rest with
      | [] => k pos rest caps
      | [c] => if chr_eqb c LF then k pos rest caps else None
      | _ => None
      end
  | Cat r1 r2 =>
      rmatch r1 pos rest caps (fun p' rest' caps' => rmatch r2 p' rest' caps' k)
  | Alt r1 r2 =>
      match rmatch r1 pos rest caps k with
      | Some x => Some x
      | None => rmatch r2 pos rest caps k
      end
  | Grp n r1 =>
      rmatch r1 pos rest caps
        (fun p' rest' caps' => k p' rest' ((n, (pos, p')) :: caps'))
  end.

Definition match_at (r : regex) (pos : nat) (rest : str) : option match_obj :=
  rmatch r pos rest [] (fun p _ c => Some (MatchObj pos p c)).

(** [re.match(r, t)] *)
Definition re_match (r : regex) (t : str) : option match_obj := match_at r 0 t.

(** [re.fullmatch(r, t)] *)
Definition re_fullmatch (r : regex) (t : str) : option match_obj :=
  rmatch r 0 t []
    (fun p rest c => match rest with [] => Some (MatchObj 0 p c) | _ => None end).

Fixpoint search_from (r : regex) (pos : nat) (rest : str) : option match_obj :=
  match match_at r pos rest with
  | Some m => Some m
  | None =>
      match rest with
      | [] => None
      | _ :: rest' => search_from r (S pos) rest'
      end
  end.

(** [re.search(r, t)] *)
Definition re_search (r : regex) (t : str) : option match_obj := search_from r 0 t.

(** [m.group(n)] for a group that took part in the match. *)
Definition group (t : str) (m : match_obj) (n : nat) : str :=
  match find (fun c => fst c =? n) (m_caps m) with
  | Some (_, (a, b)) => slice t a b
  | None => []
  end.

(** [re.finditer(r, t)]: the matches from left to right, each search
    resuming where the previous match ended (one character further after an
    empty match). *)
Fixpoint finditer_from (r : regex) (fuel pos : nat) (rest : str) : list match_obj :=
  match fuel with
  | O => []
  | S fuel' =>
      match search_from r pos rest with
      | None => []
      | Some m =>
          let e := if m_end m =? m_start m then S (m_end m) else m_end m in
          m :: finditer_from r fuel' e (skipn (e - pos) rest)
      end
  end.

Definition re_finditer (r : regex) (t : str) : list match_obj :=
  finditer_from r (S (length t)) 0 t.

(** [re.sub(r, repl, t)] for a literal replacement and a pattern that
    matches no empty string. *)
Fixpoint sub_from (r : regex) (repl : str) (skip pos : nat) (rest : str) : str :=
  match rest with
  | [] => []
  | c :: rest' =>
      match skip with
      | S k => sub_from r repl k (S pos) rest'
      | O =>
          match match_at r pos rest with
          | Some m =>
              match m_end m - pos with
              | O => c :: sub_from r repl 0 (S pos) rest'
              | S k => repl ++ sub_from r repl k (S pos) rest'
              end
          | None => c :: sub_from r repl 0 (S pos) rest'
          end
      end
  end.

Definition re_sub (r : regex) (repl t : str) : str := sub_from r repl 0 0 t.

(** [re.split(r, t)] where the whole pattern is one capture group: the
    pieces between the matches alternate with the matched separators. *)
Fixpoint split_at (t : str) (pos : nat) (ms : list match_obj) : list str :=
  match ms with
  | [] => [slice_from t pos]
  | m :: ms' => slice t pos (m_start m) :: slice t (m_start m) (m_end m) :: split_at t (m_end m) ms'
  end.

Definition re_split (r : regex) (t : str) : list str := split_at t 0 (re_finditer r t).

Definition is_some (A : Type) (o : option A) : bool :=
  match o with Some _ => true | None => false end.

(** Concatenation of a list of regexes. *)
Fixpoint Seq (rs : list regex) : regex :=
  match rs with
  | [] => Lit []
  | [r] => r
  | r :: rs' => Cat r (Seq rs')
  end.

(** A character class given by the characters it lists. *)
Definition one_of (s : str) (c : char) : bool := existsb (chr_eqb c) s.

Definition not_nl (c : char) : bool := negb (chr_eqb c LF).

(** [min(p :: ps)] *)
Definition min_list (p : nat) (ps : list nat) : nat := fold_left Nat.min ps p.

Definition opt_list (A : Type) (o : option A) : list A :=
  match o with Some x => [x] | None => [] end.

(** The first element of [l] on which [f] succeeds, with its result. *)
Fixpoint first_some (A B : Type) (f : A -> option B) (l : list A) : option B :=
  match l with
  | [] => None
  | x :: l' =>
      match f x with
      | Some y => Some y
      | None => first_some f l'
      end
  end.

(* ================================================================= *)
(** * main.py: AnnualReportParser *)

Definition MAJOR_HEADING_KEYWORDS : list str :=
  map U
    ["核心竞争力"; "核心竞争力分析";
     "主营业务分析"; "主营业务";
     "非主营业务分析"; "非主营业务";
     "资产及负债状况分析"; "资产及负债"; "资产负债";
     "投资状况分析"; "投资状况";
     "公司治理"; "重要事项";
     "公司未来发展的展望"; "未来发展的展望";
     "行业情况"; "行业状况"; "所属行业"; "所处行业"; "行业概况";
     "从事的主要业务"; "主要业务"; "主营业务";
     "公司未来发展的展望"]%string.

(** [[一二三四五六七八九十]] *)
Definition cn_numeral : char -> bool := one_of (U "一二三四五六七八九十").

(** [[一二三四五六七八九十0-9]] *)
Definition cn_or_ascii_digit (c : char) : bool :=
  cn_numeral c || ((48 <=? c)%N && (c <=? 57)%N).

(** [(?:[一二三四五六七八九十]{1,3}|\d{1,2})] *)
Definition ORD : regex :=
  Alt (Rep cn_numeral 1 (Some 3)) (Rep is_decimal 1 (Some 2)).

(** [[、\.．:：]] *)
Definition delim : char -> bool := one_of (U "、.．:：").

(** [[（(]] and [[）)]] *)
Definition lparen : char -> bool := one_of (U "（(").
Definition rparen : char -> bool := one_of (U "）)").

(** [(?:^|\n)] *)
Definition line_start : regex := Alt Bol (Lit [LF]).

(** [(?:\n\s*[（(][一二三四五六七八九十0-9]{1,3}[）)])] *)
Definition re_next_bracket : regex :=
  Seq [Lit [LF]; Star is_space; One lparen; Rep cn_or_ascii_digit 1 (Some 3);
       One rparen].

(** [(?:\n\s*(?:[一二三四五六七八九十]{1,3}|\d{1,2})、)] *)
Definition re_next_first_level : regex :=
  Seq [Lit [LF]; Star is_space; ORD; Lit (U "、")].

(** [start_idx] is [None] or an integer; the guard
    [start_idx is None or start_idx < 0] answers [None]. *)
Definition checked_start (start_idx : option Z) : option nat :=
  match start_idx with
  | None => None
  | Some z => if (z <? 0)%Z then None else Some (Z.to_nat z)
  end.

Definition _slice_to_next_bracket_heading (text : str) (start_idx : option Z)
  : option str :=
  match checked_start start_idx with
  | None => None
  | Some s =>
      let tail := slice_from text (s + 1) in
      let next_sub :=
        option_map (fun m => s + 1 + m_start m) (re_search re_next_bracket tail) in
      let next_major :=
        option_map (fun m => s + 1 + m_start m) (re_search re_next_first_level tail) in
      let candidates := opt_list next_sub ++ opt_list next_major in
      let end_idx :=
        match candidates with
        | [] => length text
        | p :: ps => min_list p ps
        end in
      Some (strip (slice text s end_idx))
  end.

(** The line-drop rules of [normalize], on a stripped line; the source
    tests them one after the other and [continue]s on the first that holds. *)
Definition noise_line (line : str) : bool :=
  negb (truthy line)
  || is_some (re_fullmatch (Rep is_decimal 1 (Some 4)) line)
  || is_some (re_fullmatch
                (Seq [Rep is_decimal 1 (Some 4); Star is_space; Lit (U "/");
                      Star is_space; Rep is_decimal 1 (Some 4)]) line)
  || (str_in (U "年度报告") line && str_in (U "股份有限公司") line)
  || (startswith (U "公司代码：") line || startswith (U "公司简称：") line
      || str_in (U "公司代码：") line)
  || ((endswith (U "股份有限公司") line || endswith (U "有限公司") line)
      && (length line <=? 30))
  || (str_in (U "年度报告") line && (length line <=? 20))
  || is_some (re_fullmatch (Rep (one_of (U "-+|")) 3 None) line)
  || str_in (U "年度报告全文") line.

(** [re.sub(r"\n+", "\n", text)] *)
Definition collapse_newlines (t : str) : str :=
  re_sub (Plus (chr_eqb LF)) [LF] t.

(** The lines [normalize] keeps: each physical line stripped, the noise
    lines left out. *)
Definition kept_lines (t : str) : list str :=
  filter (fun line => negb (noise_line line)) (map strip (split LF t)).

(** The first two steps of [normalize]: every line break becomes "\n", runs
    of "\n" become one. *)
Definition unify_newlines (text : str) : str :=
  collapse_newlines
    (replace [FF] [LF] (replace [CR] [LF] (replace [CR; LF] [LF] text))).

Definition normalize (text : str) : str :=
  let text := unify_newlines text in
  let lines := kept_lines text in
  let text := join [LF] lines in
  let text := replace [SP] [] text in
  collapse_newlines text.

(** The lines that survive the line filter of [normalize], as they are
    before their spaces are removed. *)
Definition surviving_lines (text : str) : list str :=
  kept_lines (unify_newlines text).

(** A PDF file is read only through
    [pdfminer_extract_text(pdf_path, page_numbers=...)]; a [pdf] is that
    function of the requested page numbers. *)
Definition pdf := list nat -> str.

Definition extract_text (pdf_path : pdf) (page_numbers : list nat) : str :=
  let text := pdf_path page_numbers in
  if truthy text then normalize text else [].

(** ** Heading search and boundaries *)

(** [(?:^|\n)\s*([一二三四五六七八九十]{1,3}|\d{1,2})[、\.．:：]\s*([^\n]{1,80})] *)
Definition re_first_level_title : regex :=
  Seq [line_start; Star is_space; Grp 1 ORD; One delim; Star is_space;
       Grp 2 (Rep not_nl 1 (Some 80))].

(** [(?:^|\n)\s*[（(][一二三四五六七八九十0-9]{1,3}[）)]\s*([^\n]{1,80})] *)
Definition re_bracket_title : regex :=
  Seq [line_start; Star is_space; One lparen; Rep cn_or_ascii_digit 1 (Some 3);
       One rparen; Star is_space; Grp 1 (Rep not_nl 1 (Some 80))].

(** The loop [for m in re.finditer(r, tail): ... break]: the first match
    whose title group [g] contains one of the keywords. *)
Definition first_titled (r : regex) (g : nat) (kws : list str) (tail : str)
  : option match_obj :=
  find (fun m => any_in kws (group tail m g)) (re_finditer r tail).

Definition _slice_to_next_heading_with_title_keywords
    (text : str) (start_idx : option Z) (title_keywords : list str) : option str :=
  match checked_start start_idx with
  | None => None
  | Some s =>
      let tail := slice_from text (s + 1) in
      let cand_a :=
        option_map (fun m => s + 1 + m_start m)
          (first_titled re_first_level_title 2 title_keywords tail) in
      let cand_b :=
        option_map (fun m => s + 1 + m_start m)
          (first_titled re_bracket_title 1 title_keywords tail) in
      match opt_list cand_a ++ opt_list cand_b with
      | [] => None
      | p :: ps => Some (strip (slice text s (min_list p ps)))
      end
  end.

(** [(?:\n\s*([一二三四五六七八九十]{1,3}|\d{1,2})、([^\n]{1,60}))] *)
Definition re_major_heading : regex :=
  Seq [Lit [LF]; Star is_space; Grp 1 ORD; Lit (U "、");
       Grp 2 (Rep not_nl 1 (Some 60))].

(** Offset in [text] of the next first-level heading after [s] whose title
    contains a major-heading keyword. *)
Definition next_major_heading (text : str) (s : nat) : option nat :=
  option_map (fun m => s + 1 + m_start m)
    (first_titled re_major_heading 2 MAJOR_HEADING_KEYWORDS (slice_from text (s + 1))).

Definition _slice_to_next_major_heading (text : str) (start_idx : option Z)
  : option str :=
  match checked_start start_idx with
  | None => None
  | Some s =>
      match next_major_heading text s with
      | Some end_idx => Some (strip (slice text s end_idx))
      | None => None
      end
  end.

Definition cn_list : list str :=
  map U ["一"; "二"; "三"; "四"; "五"; "六"; "七"; "八"; "九"; "十";
         "十一"; "十二"; "十三"; "十四"; "十五"; "十六"; "十七"; "十八";
         "十九"; "二十"]%string.

Definition cn_to_ar : list (str * str) :=
  map (fun kv => (U (fst kv), U (snd kv)))
    [("一", "1"); ("二", "2"); ("三", "3"); ("四", "4"); ("五", "5");
     ("六", "6"); ("七", "7"); ("八", "8"); ("九", "9"); ("十", "10");
     ("十一", "11"); ("十二", "12"); ("十三", "13"); ("十四", "14");
     ("十五", "15"); ("十六", "16"); ("十七", "17"); ("十八", "18");
     ("十九", "19"); ("二十", "20")]%string.

(** [{v: k for k, v in cn_to_ar.items()}] *)
Definition ar_to_cn : list (str * str) :=
  map (fun kv => (snd kv, fst kv)) cn_to_ar.

(** [d.get(k)] *)
Definition dict_get (d : list (str * str)) (k : str) : option str :=
  option_map snd (find (fun kv => str_eqb (fst kv) k) d).

(** [l.index(x)], when [x in l]. *)
Fixpoint list_index (l : list str) (x : str) : option nat :=
  match l with
  | [] => None
  | y :: l' => if str_eqb y x then Some 0 else option_map S (list_index l' x)
  end.

Definition _next_ordinal_candidates (current_ordinal : str) : list str :=
  let cur_cn :=
    if is_some (re_fullmatch (Rep is_decimal 1 (Some 2)) current_ordinal)
    then dict_get ar_to_cn current_ordinal
    else Some current_ordinal in
  match cur_cn with
  | None => []
  | Some cn =>
      match list_index cn_list cn with
      | None => []
      | Some idx =>
          if idx + 1 <? length cn_list then
            let nxt_cn := nth (idx + 1) cn_list [] in
            match dict_get cn_to_ar nxt_cn with
            | Some nxt_ar => if truthy nxt_ar then [nxt_cn; nxt_ar] else [nxt_cn]
            | None => [nxt_cn]
            end
          else []
      end
  end.

(** [(?:\n\s*{re.escape(cand)}、)] *)
Definition re_next_ordinal (cand : str) : regex :=
  Seq [Lit [LF]; Star is_space; Lit cand; Lit (U "、")].

(** Offsets in [text], after [s], of the first occurrence of each candidate
    next ordinal. *)
Definition next_ordinal_positions (text : str) (s : nat) (candidates : list str)
  : list nat :=
  flat_map
    (fun cand =>
       if truthy cand then
         opt_list (option_map (fun m => s + 1 + m_start m)
                     (re_search (re_next_ordinal cand) (slice_from text (s + 1))))
       else [])
    candidates.

(** The second rule of [_slice_to_next_ordinal]: up to the earliest
    next-ordinal occurrence, or to the end of the text. *)
Definition slice_by_ordinal (text : str) (s : nat) (current_ordinal : str) : str :=
  let end_idx :=
    match next_ordinal_positions text s (_next_ordinal_candidates current_ordinal) with
    | [] => length text
    | p :: ps => min_list p ps
    end in
  strip (slice text s end_idx).

Definition _slice_to_next_ordinal (text : str) (start_idx : option Z)
    (current_ordinal : str) : option str :=
  match checked_start start_idx with
  | None => None
  | Some s =>
      match _slice_to_next_major_heading text start_idx with
      | Some major_slice =>
          if truthy major_slice then Some major_slice
          else Some (slice_by_ordinal text s current_ordinal)
      | None => Some (slice_by_ordinal text s current_ordinal)
      end
  end.

(** [option_map] on the offset of a match, as a Python integer. *)
Definition start_of (m : option match_obj) : option Z :=
  option_map (fun m => Z.of_nat (m_start m)) m.

(** [extract_section_by_ordinal] splices [ordinal_cn] and the fallback
    keywords into its patterns unescaped.  They are read here as literal
    text, which is what the splice means for the numerals and titles the
    function is written for (strings without regex metacharacters). *)
Definition extract_section_by_ordinal (text : str) (ordinal_cn : str)
    (keyword_fallback : option (list str)) : option str :=
  let cn_to_arabic := firstn 12 cn_to_ar in
  let arabic := dict_get cn_to_arabic ordinal_cn in
  let search_lit (lits : list str) (tl : list regex) :=
    first_some (fun l => re_search (Seq ([line_start; Star is_space; Lit l] ++ tl)) text) lits in
  let arabic_ok := match arabic with Some a => if truthy a then [a] else [] | None => [] end in
  (* 1) ordinal_cn + 、 ; 2) arabic + 、 *)
  let start_idx :=
    match search_lit [ordinal_cn] [Lit (U "、")] with
    | Some m1 => Some m1
    | None => search_lit arabic_ok [Lit (U "、")]
    end in
  (* 3) bracketed forms *)
  let bracketed (o : str) : regex :=
    Seq [line_start; Star is_space;
         Alt (Seq [Lit (U "（"); Lit o; Lit (U "）")]) (Seq [Lit (U "("); Lit o; Lit (U ")")])] in
  let start_idx :=
    match start_idx with
    | Some m => Some m
    | None =>
        match re_search (bracketed ordinal_cn) text with
        | Some m3 => Some m3
        | None => first_some (fun a => re_search (bracketed a) text) arabic_ok
        end
    end in
  (* 4) keyword fallback *)
  let start_idx :=
    match start_idx, keyword_fallback with
    | None, Some kws => search_lit kws []
    | _, _ => start_idx
    end in
  _slice_to_next_ordinal text (start_of start_idx) ordinal_cn.

(** [(?:^|\n)\s*([一二三四五六七八九十]{1,3}|\d{1,2})[、\.．:：]\s*[^\n]*{re.escape(kw)}[^\n]*] *)
Definition re_keyword_heading (kw : str) : regex :=
  Seq [line_start; Star is_space; Grp 1 ORD; One delim; Star is_space;
       Star not_nl; Lit kw; Star not_nl].

(** [(?:^|\n)\s*[（(]([一二三四五六七八九十0-9]{1,3})[）)]\s*[^\n]*{re.escape(kw)}[^\n]*] *)
Definition re_keyword_bracket (kw : str) : regex :=
  Seq [line_start; Star is_space; One lparen;
       Grp 1 (Rep cn_or_ascii_digit 1 (Some 3)); One rparen; Star is_space;
       Star not_nl; Lit kw; Star not_nl].

(** Truth value of an optional list argument. *)
Definition truthy_list (A : Type) (o : option (list A)) : list A :=
  match o with Some l => l | None => [] end.

(** What the first loop of [extract_section_by_keywords] returns once a
    keyword has matched a first-level heading with match [m]. *)
Definition slice_first_level (text : str) (m : match_obj)
    (end_title_keywords : option (list str)) : option str :=
  let start := Z.of_nat (m_start m) in
  match truthy_list end_title_keywords with
  | (_ :: _) as etk =>
      match _slice_to_next_heading_with_title_keywords text (Some start) etk with
      | Some ((_ :: _) as sliced) => Some sliced
      | _ => Some (strip (slice_from text (m_start m)))
      end
  | [] => _slice_to_next_ordinal text (Some start) (group text m 1)
  end.

(** What the second loop returns once a keyword has matched a bracketed
    heading with match [m]. *)
Definition slice_bracket (text : str) (m : match_obj) : option str :=
  match _slice_to_next_bracket_heading text (Some (Z.of_nat (m_start m))) with
  | Some ((_ :: _) as sliced) => Some sliced
  | _ => Some (strip (slice_from text (m_start m)))
  end.

(** The last tier: the fallback ordinals in order, the first non-empty
    section wins. *)
Definition by_fallback_ordinals (text : str) (fallback_ordinals : option (list str))
  : option str :=
  first_some
    (fun o =>
       match extract_section_by_ordinal text o None with
       | Some ((_ :: _) as sec) => Some sec
       | _ => None
       end)
    (truthy_list fallback_ordinals).

Definition extract_section_by_keywords (text : str) (keywords : list str)
    (fallback_ordinals end_title_keywords : option (list str)) : option str :=
  match first_some (fun kw => re_search (re_keyword_heading kw) text) keywords with
  | Some m => slice_first_level text m end_title_keywords
  | None =>
      match first_some (fun kw => re_search (re_keyword_bracket kw) text) keywords with
      | Some m => slice_bracket text m
      | None => by_fallback_ordinals text fallback_ordinals
      end
  end.

(** ** extract_mda *)

Record mda : Type := Mda {
  industry : option str;
  business : option str;
  future : option str;
  full_mda : str
}.

(** ["目录" in t or "目 录" in t] *)
Definition has_toc_marker (t : str) : bool :=
  str_in (U "目录") t || str_in (U "目 录") t.

(** [range(a, b)] *)
Definition range (a b : nat) : list nat := seq a (b - a).

(** The first loop: the first of pages 0..19 whose text holds the
    table-of-contents marker. *)
Definition find_toc_page (pdf_path : pdf) : option nat :=
  find (fun p => let t := extract_text pdf_path [p] in truthy t && has_toc_marker t)
    (range 0 20).

Definition toc_pages_of (toc_page : option nat) : list nat :=
  match toc_page with
  | Some p => range p (Nat.min (p + 4) 20)
  | None => range 0 6
  end.

(** [第三节\s*管理层讨论与分析[\.·…\s]{2,200}(\d{1,4})] *)
Definition re_toc_line : regex :=
  Seq [Lit (U "第三节"); Star is_space; Lit (U "管理层讨论与分析");
       Rep (fun c => one_of (U ".·…") c || is_space c) 2 (Some 200);
       Grp 1 (Rep is_decimal 1 (Some 4))].

(** [第三节\s*管理层讨论与分析] *)
Definition re_section_three : regex :=
  Seq [Lit (U "第三节"); Star is_space; Lit (U "管理层讨论与分析")].

(** [第\s*四\s*节|第四节] *)
Definition re_section_four : regex :=
  Alt (Seq [Lit (U "第"); Star is_space; Lit (U "四"); Star is_space; Lit (U "节")])
      (Lit (U "第四节")).

(** The page number the table-of-contents line gives for section three:
    [int(m.group(1))] for the match [m] in the text of the pages
    [toc_pages]. *)
Definition toc_page_num (pdf_path : pdf) (toc_pages : list nat) : option nat :=
  let toc_text := extract_text pdf_path toc_pages in
  option_map (fun m => int_of_digits (group toc_text m 1))
    (re_search re_toc_line toc_text).

(** The start page after the table-of-contents lookup and its validation
    (steps 1 and 1.5 of the source). *)
Definition start_from_toc (pdf_path : pdf) (toc_pages : list nat) : option nat :=
  let start_page :=
    match toc_page_num pdf_path toc_pages with
    | Some page_num => if 5 <=? page_num then Some (page_num - 1) else None
    | None => None
    end in
  match start_page with
  | None => None
  | Some sp =>
      if sp <? 5 then None
      else
        let check_text := extract_text pdf_path [sp] in
        let start_page :=
          if truthy check_text && has_toc_marker check_text then None else Some sp in
        match start_page with
        | Some sp' => if existsb (Nat.eqb sp') toc_pages then None else Some sp'
        | None => None
        end
  end.

(** Step 2: the first page from [scan_start] up to 199 that has text, no
    table-of-contents marker, and the section-three marker. *)
Definition scan_for_start (pdf_path : pdf) (toc_page : option nat) : option nat :=
  let scan_start := match toc_page with Some p => p + 1 | None => 0 end in
  find
    (fun p =>
       let page_text := extract_text pdf_path [p] in
       truthy page_text && negb (has_toc_marker page_text)
       && is_some (re_search re_section_three page_text))
    (range scan_start 200).

Definition locate_start (pdf_path : pdf) : option nat :=
  let toc_page := find_toc_page pdf_path in
  match start_from_toc pdf_path (toc_pages_of toc_page) with
  | Some start_page => Some start_page
  | None => scan_for_start pdf_path toc_page
  end.

(** The result of the table-of-contents lookup of a run. *)
Definition toc_lookup (pdf_path : pdf) : option nat :=
  toc_page_num pdf_path (toc_pages_of (find_toc_page pdf_path)).

(** Step 3: the page texts from the start page on, up to the first page
    with a section-four marker. *)
Fixpoint capture_pages (pdf_path : pdf) (ps : list nat) (mda_text : str) : str :=
  match ps with
  | [] => mda_text
  | p :: ps' =>
      let page_text := extract_text pdf_path [p] in
      if negb (truthy page_text) then capture_pages pdf_path ps' mda_text
      else if is_some (re_search re_section_four page_text) then mda_text
      else capture_pages pdf_path ps' (mda_text ++ page_text ++ [LF])
  end.

(** Cut the captured text to begin at the section-three marker. *)
Definition crop_to_section_three (mda_text : str) : str :=
  match re_search re_section_three mda_text with
  | Some m3 => strip (slice_from mda_text (m_start m3))
  | None => mda_text
  end.

Definition stop_titles : list str :=
  map U ["报告期内核心竞争力分析"; "核心竞争力分析"; "主营业务分析"; "公司治理";
         "重要事项"; "公司未来发展的展望"; "未来发展的展望"; "风险因素";
         "风险提示"; "经营情况讨论与分析"]%string.

(** [(?:^|\n)\s*(?:[一二三四五六七八九十]{1,3}|\d{1,2})[、\.．:：]\s*[^\n]{0,80}核心竞争力分析] *)
Definition re_core : regex :=
  Seq [line_start; Star is_space; ORD; One delim; Star is_space;
       Rep not_nl 0 (Some 80); Lit (U "核心竞争力分析")].

(** [mda_text.strip() if mda_text else default] *)
Definition stripped_or (mda_text : str) (default : option str) : option str :=
  if truthy mda_text then Some (strip mda_text) else default.

(** [management_overview] as it stands before the final checks: the slice
    up to the next stop title, then the forced cut at the
    core-competitiveness heading. *)
Definition overview_before_checks (mda_text : str) : option str :=
  let management_overview :=
    match _slice_to_next_heading_with_title_keywords mda_text (Some 0%Z) stop_titles with
    | Some ((_ :: _) as sliced) => Some sliced
    | _ => stripped_or mda_text None
    end in
  match re_search re_core mda_text with
  | Some m_core =>
      if 0 <? m_start m_core
      then Some (strip (slice mda_text 0 (m_start m_core)))
      else management_overview
  | None => management_overview
  end.

Definition future_keywords : list str :=
  map U ["公司未来发展的展望"; "未来发展的展望"; "未来发展展望"; "发展规划";
         "未来规划"]%string.

Definition future_before_checks (mda_text : str) : option str :=
  extract_section_by_keywords mda_text future_keywords None None.

(** The final checks on the two subsections. *)
Definition check_overview (mda_text : str) (management_overview : option str)
  : option str :=
  match management_overview with
  | Some o => if length o <? 500 then stripped_or mda_text management_overview
              else management_overview
  | None => None
  end.

Definition check_future (future : option str) : option str :=
  match future with
  | Some f => if length f <? 200 then None else future
  | None => None
  end.

(** The text captured from [start_page]: [None] when nothing was captured. *)
Definition captured_text (pdf_path : pdf) (start_page : nat) : option str :=
  let mda_text := capture_pages pdf_path (range start_page (start_page + 200)) [] in
  if truthy mda_text then Some (crop_to_section_three mda_text) else None.

Definition extract_mda (pdf_path : pdf) : option mda :=
  match locate_start pdf_path with
  | None => None
  | Some start_page =>
      match captured_text pdf_path start_page with
      | None => None
      | Some mda_text =>
          let management_overview := overview_before_checks mda_text in
          let future := future_before_checks mda_text in
          let management_overview := check_overview mda_text management_overview in
          let future := check_future future in
          Some (Mda None management_overview future mda_text)
      end
  end.

(** ** Paged documents *)

(** Modelled from the spec: the page-text collaborator
    ([getPageText(pageIndices)], here [pdfminer_extract_text]), which is
    not part of the repository.  It returns the concatenated text of the
    requested pages that exist, each closed by a form feed (the page break
    [normalize] turns into a newline), and the empty string when no
    requested page exists.  The parser only asks for ascending ranges of
    pages, for which the order of the request is the order of the pages. *)
Definition pdf_of_pages (pages : list str) : pdf :=
  fun page_numbers =>
    flat_map
      (fun p =>
         match nth_error pages p with
         | Some t => t ++ [FF]
         | None => []
         end)
      page_numbers.

(** A document given by the pages that have text; all others are blank. *)
Definition sparse_pages (n : nat) (ps : list (nat * str)) : list str :=
  map (fun i =>
         match find (fun kv => fst kv =? i) ps with
         | Some kv => snd kv
         | None => []
         end)
      (range 0 n).

(* ================================================================= *)
(** * daily_report.py: safe_block *)

(** The header/footer test of the reflow ([is_header_footer]). *)
Definition is_header_footer (line : str) : bool :=
  let s := strip line in
  negb (truthy s)
  || isdigit s
  || (str_in (U "/") s
      && forallb (fun part => isdigit (strip part))
           (filter (fun part => truthy (strip part)) (split 47%N s))
      && (length s <=? 15))
  || (str_in (U "年度报告") s && str_in (U "股份有限公司") s)
  || (startswith (U "公司代码：") s || startswith (U "公司简称：") s
      || str_in (U "公司代码：") s)
  || ((endswith (U "股份有限公司") s || endswith (U "有限公司") s)
      && (length s <=? 30))
  || (str_in (U "年度报告") s && (length s <=? 25)).

(** [[tok[i:i+step] for i in range(0, len(tok), step)]] *)
Fixpoint chunks (fuel step : nat) (tok : str) : list str :=
  match fuel, tok with
  | _, [] => []
  | O, _ => []
  | S fuel', _ => firstn step tok :: chunks fuel' step (skipn step tok)
  end.

(** [[A-Za-z0-9_\\./-]] *)
Definition url_char (c : char) : bool :=
  in_ranges [(65, 90); (97, 122); (48, 57)]%N c || one_of (U "_\./-") c.

Definition _soften_token (tok : str) : str :=
  if length tok <? 25 then tok
  else if is_some (re_fullmatch (Plus url_char) tok)
       then join [ZWSP] (chunks (length tok) 20 tok)
       else tok.

(** [for i in range(0, len(parts), 2): parts[i] = f(parts[i])] *)
Fixpoint map_even (f : str -> str) (parts : list str) : list str :=
  match parts with
  | [] => []
  | [x] => [f x]
  | x :: y :: parts' => f x :: y :: map_even f parts'
  end.

Definition soften_long_tokens (line : str) : str :=
  concat (map_even _soften_token (re_split (Grp 1 (Plus is_space)) line)).

(** [[。；;：:]$] *)
Definition re_cell_end : regex := Cat (One (one_of (U "。；;：:"))) Eol.

Definition is_short (s : str) : bool :=
  (length s <=? 6) && negb (is_some (re_search re_cell_end s)).

(** The first [flush_buf]: the buffered short lines become one line. *)
Definition flush_cells (merged buf : list str) : list str :=
  match buf with
  | [] => merged
  | _ => merged ++ [strip (join (U "  ") buf)]
  end.

(** The short-line loop, with its two variables [merged] and [buf]. *)
Fixpoint merge_loop (tmp merged buf : list str) : list str :=
  match tmp with
  | [] => flush_cells merged buf
  | s :: tmp' =>
      if is_short s then
        let buf := buf ++ [s] in
        if 12 <=? length buf
        then merge_loop tmp' (flush_cells merged buf) []
        else merge_loop tmp' merged buf
      else merge_loop tmp' (flush_cells merged buf ++ [s]) []
  end.

Definition merge_short_lines (tmp : list str) : list str := merge_loop tmp [] [].

(** [^(第[一二三四五六七八九十0-9]{1,3}[节章节]|[一二三四五六七八九十]{1,3}、|\d{1,2}、|
      [（(][一二三四五六七八九十0-9]{1,3}[）)]|\([一二三四五六七八九十0-9]{1,3}\))] *)
Definition heading_re : regex :=
  Cat Bol
    (Grp 1
       (Alt (Seq [Lit (U "第"); Rep cn_or_ascii_digit 1 (Some 3); One (one_of (U "节章节"))])
       (Alt (Seq [Rep cn_numeral 1 (Some 3); Lit (U "、")])
       (Alt (Seq [Rep is_decimal 1 (Some 2); Lit (U "、")])
       (Alt (Seq [One lparen; Rep cn_or_ascii_digit 1 (Some 3); One rparen])
            (Seq [Lit (U "("); Rep cn_or_ascii_digit 1 (Some 3); Lit (U ")")])))))).

(** [[。！？；：:）)」』】]$] *)
Definition end_punct_re : regex := Cat (One (one_of (U "。！？；：:）)」』】"))) Eol.

(** The second [flush_buf]: the running paragraph is closed. *)
Definition flush_para (paras : list str) (buf : str) : list str :=
  if truthy (strip buf) then paras ++ [strip buf] else paras.

(** The paragraph loop, with its two variables [paras] and [buf]. *)
Fixpoint reflow_loop (lines paras : list str) (buf : str) : list str :=
  match lines with
  | [] => flush_para paras buf
  | s :: lines' =>
      let s := strip s in
      if negb (truthy s) then reflow_loop lines' (flush_para paras buf) []
      else if is_some (re_match heading_re s) then
        let paras := flush_para paras buf in
        let paras :=
          match paras with
          | [] => paras
          | _ => if truthy (last paras []) then paras ++ [[]] else paras
          end in
        reflow_loop lines' (paras ++ [s]) []
      else if negb (truthy buf) then reflow_loop lines' paras s
      else if is_some (re_search end_punct_re buf)
           then reflow_loop lines' (flush_para paras buf) s
           else reflow_loop lines' paras (buf ++ s)
  end.

(** [while paras and paras[-1] == "": paras.pop()] *)
Fixpoint drop_trailing_blank (paras : list str) : list str :=
  match paras with
  | [] => []
  | p :: ps =>
      match drop_trailing_blank ps with
      | [] => if truthy p then [p] else []
      | ps' => p :: ps'
      end
  end.

Definition clean_text_for_pdf (t : str) : str :=
  if negb (truthy t) then t
  else
    let raw_lines := splitlines t in
    let tmp :=
      filter (fun s => negb (is_header_footer s))
        (map (fun ln => strip (replace [NBSP] [SP] ln)) raw_lines) in
    let tmp := map soften_long_tokens tmp in
    let merged := merge_short_lines tmp in
    let lines := filter truthy merged in
    let paras := reflow_loop lines [] [] in
    strip (join [LF] (drop_trailing_blank paras)).

(** [xml.sax.saxutils.escape] *)
Definition escape (s : str) : str :=
  replace (U "<") (U "&lt;") (replace (U ">") (U "&gt;") (replace (U "&") (U "&amp;") s)).

(** A ReportLab paragraph in the body style, given by its markup. *)
Inductive flowable : Type :=
| Paragraph (markup : str).

Definition placeholder : flowable := Paragraph (U "（未提取到内容）").

Definition indent : str := U "&#12288;&#12288;".

Definition html_line (ln : str) : str :=
  let s := strip ln in
  if negb (truthy s) then []
  else
    let esc := escape s in
    if is_some (re_match heading_re s) then esc else indent ++ esc.

(** [text] is a database field: a string or [None]. *)
Definition safe_block (text : option str) : flowable :=
  match text with
  | None | Some [] => placeholder
  | Some t =>
      let cleaned := clean_text_for_pdf t in
      let lines := split LF cleaned in
      Paragraph (join (U "<br/>") (map html_line lines))
  end.


(* ================================================================= *)
(** * main.py: main, the announcement filters *)

(** [t.split(sep)[0]] for a non-empty [sep]: the text before the first
    [sep], the whole text when there is none. *)
Fixpoint before_first (sep t : str) : str :=
  match t with
  | [] => []
  | c :: t' => if startswith sep t then [] else c :: before_first sep t'
  end.

(** [(20\d{2})] *)
Definition year_group : regex :=
  Grp 1 (Cat (Lit (U "20")) (Rep is_decimal 2 (Some 2))).

(** [(20\d{2})\s*年?\s*年度报告] *)
Definition re_report_year : regex :=
  Seq [year_group; Star is_space; Alt (Lit (U "年")) (Lit []); Star is_space;
       Lit (U "年度报告")].

(** [^(20\d{2})] *)
Definition re_leading_year : regex := Cat Bol year_group.

(** The title filter of the announcement loop and the year it reads:
    [None] where the loop [continue]s. *)
Definition report_year (title : str) : option nat :=
  if negb (str_in (U "年度报告") title) then None
  else if str_in (U "摘要") title then None
  else if str_in (U "关于") title
          && negb (str_in (U "年度报告") (before_first (U "关于") title))
       then None
  else
    match re_search re_report_year title with
    | Some year_match => Some (int_of_digits (group title year_match 1))
    | None =>
        match re_match re_leading_year title with
        | Some m0 => Some (int_of_digits (group title m0 1))
        | None => None
        end
    end.

(** [adj_url.split("/")[-1]] *)
Definition file_name_of (adj_url : str) : str := last (split 47%N adj_url) [].

(* ================================================================= *)
(** * daily_report.py: main, the recipients *)

(** The loop over
    [to_raw.replace(";", ",").replace(" ", ",").split(",")]: each part
    stripped, the empty ones left out. *)
Definition recipients (to_raw : str) : list str :=
  filter truthy
    (map strip
       (split 44%N (replace [SP] (U ",") (replace (U ";") (U ",") to_raw)))).

(** [", ".join(to_list)] *)
Definition to_addr_of (to_list : list str) : str := join (U ", ") to_list.

(* ================================================================= *)
(** * Notions used in the statements *)

(** The characters [replace(" ", "")] keeps. *)
Definition not_sp (x : char) : bool := negb (chr_eqb SP x).

(** The first character, if any, is no white space. *)
Definition head_ok (l : str) : Prop :=
  match l with
  | c :: _ => is_space c = false
  | [] => True
  end.

(** No white space at either end. *)
Definition trimmed (l : str) : Prop := head_ok l /\ head_ok (rev l).

(** A line of the merged output that stands for the group [g] of short
    lines. *)
Definition group_line (g : list str) : str := strip (join (U "  ") g).

(** A line of the merged output of [tmp] is accounted for: it is a line of
    [tmp] that is not short, or the group line of at most 12 consecutive
    short lines of [tmp]. *)
Definition accounted (tmp : list str) (m : str) : Prop :=
  (In m tmp /\ is_short m = false)
  \/ exists pre g post : list str,
       tmp = pre ++ g ++ post
       /\ 1 <= length g <= 12
       /\ Forall (fun s => is_short s = true) g
       /\ m = group_line g.

(** [a] is a contiguous piece of [t]. *)
Definition piece_of (a t : str) : Prop :=
  exists pre post : str, t = pre ++ a ++ post.

(** A recipient as the loop leaves it: not empty, stripped, and without
    comma, semicolon or space. *)
Definition address_ok (p : str) : Prop :=
  p <> [] /\ trimmed p /\ ~ In 44%N p /\ ~ In 59%N p /\ ~ In SP p.

(** The pattern has no capture group. *)
Fixpoint group_free (r : regex) : bool :=
  match r with
  | Lit _ | Rep _ _ _ | Bol | Eol => true
  | Cat r1 r2 | Alt r1 r2 => group_free r1 && group_free r2
  | Grp _ _ => false
  end.

(** The characters other than the zero-width space. *)
Definition visible (c : char) : bool := negb (chr_eqb c ZWSP).

(** The matches follow one another from [pos] on. *)
Fixpoint ordered (pos : nat) (ms : list match_obj) : Prop :=
  match ms with
  | [] => True
  | m :: ms' => pos <= m_start m /\ m_start m <= m_end m /\ ordered (m_end m) ms'
  end.

(** No paragraph at either end of the list is blank. *)
Definition no_outer_blank (paras : list str) : Prop :=
  paras = [] \/ (truthy (hd [] paras) = true /\ truthy (last paras []) = true).

(* ================================================================= *)
(** * Example documents *)

(** A sixty-page report: contents on page 2 listing page 41 for section
    three, the section-three heading on page 40, section four on page 43. *)
Definition pages_toc_41 : list str :=
    (sparse_pages 60
       [(2, U "目 录
第一节 重要提示......3
第三节 管理层讨论与分析..............41
第四节 公司治理......55");
        (40, U "XX股份有限公司 2023年年度报告
第三节 管理层讨论与分析
一、概述
本公司 经营良好。
40/200");
        (41, U "二、核心竞争力分析
很强");
        (43, U "第四节 公司治理")]%string).

Definition report_toc_41 : pdf := pdf_of_pages pages_toc_41.

(** What [extract_mda] returns for it. *)
Definition result_toc_41 : mda :=
  let section := U "第三节管理层讨论与分析
一、概述
本公司经营良好。
二、核心竞争力分析
很强" in
  Mda None (Some section) None section.

(** A future-outlook section with a nested list item "三、..." before the
    next real heading "四、公司治理". *)
Definition outlook_with_nested_list : str :=
  U "二、公司未来发展的展望
展望内容
三、深圳分公司情况
深圳内容
四、公司治理
治理内容".

(** Two blank lines, then a major heading, then the next ordinal. *)
Definition heading_after_blank : str :=
  U "

四、公司治理
五、其他".

(** Two headings, each with one of the keywords "发展规划" and "未来规划";
    the second keyword is the one of the earlier heading. *)
Definition two_plans : str :=
  U "一、未来规划
甲
二、发展规划
乙".

(** The same report with other text on the pages after the contents. *)
Definition pages_toc_41_other_body : list str :=
    (sparse_pages 60
       [(2, U "目 录
第一节 重要提示......3
第三节 管理层讨论与分析..............41
第四节 公司治理......55");
        (7, U "第三节 管理层讨论与分析......99");
        (40, U "其他内容")]%string).

Definition report_toc_41_other_body : pdf := pdf_of_pages pages_toc_41_other_body.

(** Contents marker on page 0, the contents line for section three on
    page 4. *)
Definition report_toc_line_on_page_4 : pdf :=
  pdf_of_pages
    (sparse_pages 60
       [(0, U "目录");
        (4, U "第三节 管理层讨论与分析..............41")]%string).

(** No contents marker anywhere; a contents line for section three on
    page 6. *)
Definition report_toc_line_on_page_6 : pdf :=
  pdf_of_pages
    (sparse_pages 60
       [(6, U "第三节 管理层讨论与分析..............41")]%string).

(** The contents list page 14; on page 13 the section heading is broken
    over three lines, so the section-three marker is not in the text. *)
Definition report_broken_heading : pdf :=
  pdf_of_pages
    (sparse_pages 30
       [(0, U "目录
第三节 管理层讨论与分析......14");
        (13, U "第三节
管理层
讨论与分析
一、概述
经营良好。");
        (15, U "第四节 公司治理")]%string).

(** What [extract_mda] returns for it: the captured text keeps the newline
    that closes page 13. *)
Definition result_broken_heading : mda :=
  let section := U "第三节
管理层
讨论与分析
一、概述
经营良好。" in
  Mda None (Some section) None (section ++ [LF]).

(** A title line of 23 characters. *)
Definition short_report_title : str :=
  U "2023年年度报告摘要（管理层讨论与分析部分）".

(** Three lines with spaces around and inside, and a page number. *)
Definition spaced_lines : str :=
  U "  a b  
 12 

 c".

(* ================================================================= *)
(** * The specification's wording *)

(** The boundary rule as the specification words it: whenever a later
    major heading exists, the slice ends at the first one. *)
Definition major_heading_always_ends (text : str) (s : nat) (ord : str) : Prop :=
  forall e : nat,
    next_major_heading text s = Some e ->
    _slice_to_next_ordinal text (Some (Z.of_nat s)) ord = Some (strip (slice text s e)).

(** The lookup window as the specification words it: the four pages after
    the page with the contents marker, pages 0 to 6 when there is none. *)
Definition spec_toc_window (toc_page : option nat) : list nat :=
  match toc_page with
  | Some p => range (p + 1) (p + 5)
  | None => range 0 7
  end.

Definition lookup_reads_spec_window (pdf_path : pdf) : Prop :=
  toc_lookup pdf_path = toc_page_num pdf_path (spec_toc_window (find_toc_page pdf_path)).

(** The overview fallback as the specification words it: a short overview
    is replaced by the full captured section text. *)
Definition short_overview_becomes_full_text (pdf_path : pdf) : Prop :=
  forall (r : mda) (o : str),
    extract_mda pdf_path = Some r ->
    overview_before_checks (full_mda r) = Some o ->
    length o < 500 ->
    business r = Some (full_mda r).

(* ================================================================= *)
(** * Properties *)

(** ** Strings *)

Lemma str_eqb_eq (a b : str) : str_eqb a b = true <-> a = b.
Proof.
  revert b; induction a as [|x a IH]; intros [|y b]; simpl; split;
    try congruence; try reflexivity.
  - intros H. apply andb_true_iff in H as [Hx Hab].
    apply N.eqb_eq in Hx. apply IH in Hab. congruence.
  - intros H. injection H as -> ->. apply andb_true_iff; split.
    + apply N.eqb_refl.
    + now apply IH.
Qed.

Lemma dict_get_in (d : list (str * str)) (k v : str) :
  dict_get d k = Some v -> In k (map fst d).
Proof.
  unfold dict_get. destruct (find _ d) as [kv|] eqn:F; [|discriminate].
  intros _. apply find_some in F as [Hin Heq].
  apply str_eqb_eq in Heq. subst k. now apply in_map.
Qed.

Lemma list_index_in (l : list str) (x : str) (i : nat) :
  list_index l x = Some i -> In x l.
Proof.
  revert i; induction l as [|y l IH]; simpl; intros i; [discriminate|].
  destruct (str_eqb y x) eqn:E.
  - apply str_eqb_eq in E. now left.
  - destruct (list_index l x); [|discriminate]. intros _. right. eauto.
Qed.

Lemma has_toc_marker_truthy (t : str) :
  truthy t && has_toc_marker t = has_toc_marker t.
Proof. now destruct t. Qed.

(** ** The ordinal table *)

(** C4. The next-ordinal computation answers ["三"; "3"] for "二", the
    empty list for "二十", the last entry of the table, and the empty list
    for every string that is neither one of the twenty Chinese numerals nor
    one of their Arabic forms "1" .. "20". *)
Theorem next_ordinal_candidates_table :
  _next_ordinal_candidates (U "二") = [U "三"; U "3"]
  /\ _next_ordinal_candidates (U "二十") = []
  /\ (forall o : str,
        ~ In o cn_list -> ~ In o (map snd cn_to_ar) ->
        _next_ordinal_candidates o = []).
Proof.
  split; [reflexivity|]. split; [reflexivity|].
  intros o Hcn Har. unfold _next_ordinal_candidates.
  destruct (is_some (re_fullmatch _ o)).
  - destruct (dict_get ar_to_cn o) as [cn|] eqn:G; [|reflexivity].
    exfalso. apply Har. apply dict_get_in in G.
    unfold ar_to_cn in G. rewrite map_map in G. exact G.
  - destruct (list_index cn_list o) as [idx|] eqn:I; [|reflexivity].
    exfalso. apply Hcn. eapply list_index_in; eauto.
Qed.

(** An Arabic number above 20 is not in the table. *)
Lemma next_ordinal_candidates_table_witness :
  _next_ordinal_candidates (U "21") = [].
Proof.
  apply (proj2 (proj2 next_ordinal_candidates_table)).
  - vm_compute. intuition discriminate.
  - vm_compute. intuition discriminate.
Defined.

(** ** The start page *)

(** C1. When the table-of-contents lookup reads page number [n] for
    section three, the candidate start page is [n - 1].  The locator
    returns it as the start, unless the candidate is below 5, or the text
    of the candidate page still holds a table-of-contents marker, or the
    candidate lies in the window of pages the lookup read: in these three
    cases the hit is dropped and the start is whatever the full-text scan
    finds. *)
Theorem toc_hit_validation (pdf_path : pdf) (n : nat) :
  let toc_page := find_toc_page pdf_path in
  let toc_pages := toc_pages_of toc_page in
  toc_page_num pdf_path toc_pages = Some n ->
  locate_start pdf_path =
    if (Z.of_nat n - 1 <? 5)%Z
       || has_toc_marker (extract_text pdf_path [n - 1])
       || existsb (Nat.eqb (n - 1)) toc_pages
    then scan_for_start pdf_path toc_page
    else Some (n - 1).
Proof.
  intros toc_page toc_pages Hn.
  unfold locate_start, start_from_toc.
  fold toc_page. fold toc_pages. rewrite Hn.
  destruct (Z.of_nat n - 1 <? 5)%Z eqn:Hlow; cbn [orb].
  - apply Z.ltb_lt in Hlow.
    destruct (5 <=? n) eqn:H5; [|reflexivity].
    apply Nat.leb_le in H5.
    assert (Hsp : (n - 1 <? 5) = true) by (apply Nat.ltb_lt; lia).
    now rewrite Hsp.
  - apply Z.ltb_ge in Hlow.
    assert (H5 : (5 <=? n) = true) by (apply Nat.leb_le; lia).
    assert (Hsp : (n - 1 <? 5) = false) by (apply Nat.ltb_ge; lia).
    rewrite H5, Hsp, has_toc_marker_truthy.
    destruct (has_toc_marker (extract_text pdf_path [n - 1])); cbn [orb];
      [reflexivity|].
    now destruct (existsb (Nat.eqb (n - 1)) toc_pages).
Qed.

(** The contents list page 41 and the section-three heading is on page 40:
    the start page is 40. *)
Lemma toc_hit_validation_witness : locate_start report_toc_41 = Some 40.
Proof.
  assert (H : toc_page_num report_toc_41
                (toc_pages_of (find_toc_page report_toc_41)) = Some 41)
    by (vm_compute; reflexivity).
  rewrite (toc_hit_validation report_toc_41 H).
  vm_compute. reflexivity.
Defined.

(** ** Boundaries *)

Lemma checked_start_of_nat (s : nat) : checked_start (Some (Z.of_nat s)) = Some s.
Proof.
  unfold checked_start.
  destruct (Z.of_nat s <? 0)%Z eqn:E.
  - apply Z.ltb_lt in E. lia.
  - now rewrite Nat2Z.id.
Qed.

(** [min_list] is the least offset of the list. *)
Lemma min_list_least (p : nat) (ps : list nat) :
  In (min_list p ps) (p :: ps) /\ forall q, In q (p :: ps) -> min_list p ps <= q.
Proof.
  unfold min_list. revert p; induction ps as [|x ps IH]; intros p; simpl.
  - split; [now left|]. intros q [<-|[]]. lia.
  - destruct (IH (Nat.min p x)) as [Hin Hle]. split.
    + destruct Hin as [Hin|Hin]; [|now right; right].
      rewrite <- Hin. destruct (Nat.min_spec p x) as [[_ ->]|[_ ->]]; auto.
    + intros q [<-|[<-|Hq]].
      * specialize (Hle (Nat.min p x) (or_introl eq_refl)). lia.
      * specialize (Hle (Nat.min p x) (or_introl eq_refl)). lia.
      * apply Hle. now right.
Qed.

(** C2, as the code has it.  The boundary resolver looks first for a later
    first-level heading (ordinal and "、") whose title holds a major-heading
    keyword.  If there is one, and the text from the start up to it is more
    than white space, the slice ends there, whatever the current ordinal
    and wherever the next ordinal occurs.  Otherwise the slice ends at the
    earliest occurrence of a next-ordinal candidate, and at the end of the
    text when there is none. *)
Theorem major_heading_before_next_ordinal (text : str) (s : nat) (ord : str) :
  let by_ordinal :=
    strip (slice text s
             match next_ordinal_positions text s (_next_ordinal_candidates ord) with
             | [] => length text
             | p :: ps => min_list p ps
             end) in
  _slice_to_next_ordinal text (Some (Z.of_nat s)) ord =
    match next_major_heading text s with
    | Some e =>
        if truthy (strip (slice text s e)) then Some (strip (slice text s e))
        else Some by_ordinal
    | None => Some by_ordinal
    end.
Proof.
  unfold _slice_to_next_ordinal, _slice_to_next_major_heading.
  rewrite checked_start_of_nat.
  destruct (next_major_heading text s) as [e|]; reflexivity.
Qed.

(** The nested list item "三、深圳分公司情况" does not end the section that
    "二、" opens: the slice runs up to "四、公司治理". *)
Example nested_list_item_kept :
  _slice_to_next_ordinal outlook_with_nested_list (Some 0%Z) (U "二")
  = Some (U "二、公司未来发展的展望
展望内容
三、深圳分公司情况
深圳内容")
  /\ next_ordinal_positions outlook_with_nested_list 0 (_next_ordinal_candidates (U "二")) = [16]
  /\ next_major_heading outlook_with_nested_list 0 = Some 31.
Proof. repeat split; vm_compute; reflexivity. Qed.

(** The wording of the specification fails when only white space lies
    between the start and the major heading: the slice up to the heading is
    empty, and the next-ordinal rule decides. *)
Lemma major_heading_always_ends_fails :
  ~ major_heading_always_ends heading_after_blank 0 (U "四").
Proof.
  intros H. specialize (H 1 eq_refl). vm_compute in H. discriminate H.
Qed.

(** ** Keyword order *)

Lemma first_some_hit (A B : Type) (f : A -> option B) (pre post : list A) (x : A) (y : B) :
  (forall k, In k pre -> f k = None) -> f x = Some y ->
  first_some f (pre ++ x :: post) = Some y.
Proof.
  intros Hpre Hx. induction pre as [|k pre IH]; simpl.
  - now rewrite Hx.
  - rewrite (Hpre k (or_introl eq_refl)). apply IH.
    intros k' Hk'. apply Hpre. now right.
Qed.

Lemma first_some_none (A B : Type) (f : A -> option B) (l : list A) :
  (forall k, In k l -> f k = None) -> first_some f l = None.
Proof.
  induction l as [|k l IH]; intros H; simpl; [reflexivity|].
  rewrite (H k (or_introl eq_refl)). apply IH. intros k' Hk'. apply H. now right.
Qed.

(** C10. The keywords are tried in list order.  The first keyword that
    matches a first-level heading anywhere in the text fixes the start of
    the extraction at its match, whatever the keywords after it match and
    wherever.  The bracketed headings are tried, again in list order, only
    when no keyword matches a first-level heading. *)
Theorem keywords_tried_in_order (text : str) (fallback_ordinals etk : option (list str)) :
  (forall (pre post : list str) (kw : str) (m : match_obj),
      (forall k, In k pre -> re_search (re_keyword_heading k) text = None) ->
      re_search (re_keyword_heading kw) text = Some m ->
      extract_section_by_keywords text (pre ++ kw :: post) fallback_ordinals etk
      = slice_first_level text m etk)
  /\ (forall (keywords pre post : list str) (kw : str) (m : match_obj),
        (forall k, In k keywords -> re_search (re_keyword_heading k) text = None) ->
        keywords = pre ++ kw :: post ->
        (forall k, In k pre -> re_search (re_keyword_bracket k) text = None) ->
        re_search (re_keyword_bracket kw) text = Some m ->
        extract_section_by_keywords text keywords fallback_ordinals etk
        = slice_bracket text m).
Proof.
  split.
  - intros pre post kw m Hpre Hkw. unfold extract_section_by_keywords.
    now rewrite (first_some_hit _ pre post kw Hpre Hkw).
  - intros keywords pre post kw m Hnone -> Hpre Hkw.
    unfold extract_section_by_keywords.
    rewrite (first_some_none _ _ Hnone).
    now rewrite (first_some_hit _ pre post kw Hpre Hkw).
Qed.

(** "发展规划" comes first in the list and matches the second heading;
    "未来规划" matches the first heading, at offset 0, and is not used. *)
Lemma keywords_tried_in_order_witness :
  extract_section_by_keywords two_plans [U "发展规划"; U "未来规划"] None None
  = Some (U "二、发展规划
乙")
  /\ option_map m_start (re_search (re_keyword_heading (U "未来规划")) two_plans) = Some 0
  /\ option_map m_start (re_search (re_keyword_heading (U "发展规划")) two_plans) = Some 8.
Proof.
  split.
  - refine (eq_trans
              (proj1 (keywords_tried_in_order two_plans None None) [] [U "未来规划"]
                 (U "发展规划") (MatchObj 8 15 [(1, (9, 10))]) _ _) _).
    + intros k [].
    + vm_compute. reflexivity.
    + vm_compute. reflexivity.
  - vm_compute. split; reflexivity.
Defined.

(** ** The lookup window *)

Lemma in_range (a b q : nat) : In q (range a b) <-> a <= q < b.
Proof. unfold range. rewrite in_seq. lia. Qed.

Lemma pdf_of_pages_agree (pages1 pages2 : list str) (ns : list nat) :
  (forall q, In q ns -> nth_error pages1 q = nth_error pages2 q) ->
  pdf_of_pages pages1 ns = pdf_of_pages pages2 ns.
Proof.
  intros H. unfold pdf_of_pages. induction ns as [|n ns IH]; simpl; [reflexivity|].
  rewrite (H n (or_introl eq_refl)). f_equal. apply IH.
  intros q Hq. apply H. now right.
Qed.

(** C8, as the code has it.  The lookup reads the page with the contents
    marker and the pages after it, four pages in all and none beyond page
    19, or pages 0 to 5 when no page of the first twenty has the marker.
    Two documents with the same contents page and the same pages in that
    window give the same lookup result, whatever their other pages hold. *)
Theorem toc_lookup_window :
  (forall (toc_page : option nat) (q : nat),
      In q (toc_pages_of toc_page) <->
      match toc_page with
      | Some p => p <= q < Nat.min (p + 4) 20
      | None => q < 6
      end)
  /\ (forall pages1 pages2 : list str,
        find_toc_page (pdf_of_pages pages1) = find_toc_page (pdf_of_pages pages2) ->
        (forall q, In q (toc_pages_of (find_toc_page (pdf_of_pages pages1))) ->
                   nth_error pages1 q = nth_error pages2 q) ->
        toc_lookup (pdf_of_pages pages1) = toc_lookup (pdf_of_pages pages2)).
Proof.
  split.
  - intros [p|] q; unfold toc_pages_of; rewrite in_range; lia.
  - intros pages1 pages2 Htoc Hwin. unfold toc_lookup, toc_page_num, extract_text.
    rewrite <- Htoc.
    now rewrite (pdf_of_pages_agree pages1 pages2 _ Hwin).
Qed.

(** Same contents page and same pages 2 to 5, other text elsewhere: the
    same lookup result. *)
Lemma toc_lookup_window_witness :
  toc_lookup report_toc_41 = toc_lookup report_toc_41_other_body.
Proof.
  apply (proj2 toc_lookup_window pages_toc_41 pages_toc_41_other_body).
  - vm_compute. reflexivity.
  - intros q Hq. vm_compute in Hq.
    destruct Hq as [<-|[<-|[<-|[<-|[]]]]]; vm_compute; reflexivity.
Defined.

(** With the contents marker on page 0 the code reads pages 0 to 3: the
    contents line on page 4, the fourth page after the marker, is not seen.
    With no marker it reads pages 0 to 5: the contents line on page 6 is
    not seen. *)
Lemma lookup_reads_spec_window_fails :
  ~ lookup_reads_spec_window report_toc_line_on_page_4
  /\ ~ lookup_reads_spec_window report_toc_line_on_page_6.
Proof. unfold lookup_reads_spec_window. split; vm_compute; discriminate. Qed.

(** ** Search results *)

Lemma try_down_inv (A : Type) (P : A -> Prop) (f : nat -> option A) (lo n : nat) (x : A) :
  (forall j, f j = Some x -> P x) -> try_down n lo f = Some x -> P x.
Proof.
  intros Hf. induction n as [|n IH]; simpl.
  - destruct (f 0) eqn:F; [|discriminate]. intros E. apply (Hf 0). congruence.
  - destruct (f (S n)) eqn:F.
    + intros E. apply (Hf (S n)). congruence.
    + destruct (lo <=? n); [exact IH|discriminate].
Qed.

(** Whatever holds of every result of the continuation holds of the result
    of the match. *)
Lemma rmatch_inv (A : Type) (P : A -> Prop) (r : regex) :
  forall (p : nat) (rest : str) (caps : captures)
         (k : nat -> str -> captures -> option A) (x : A),
    (forall p' rest' caps', k p' rest' caps' = Some x -> P x) ->
    rmatch r p rest caps k = Some x -> P x.
Proof.
  induction r; intros p rest caps k x Hk; simpl.
  - destruct (startswith s rest); [apply Hk|discriminate].
  - destruct (run_len cls rest hi <? lo); [discriminate|].
    apply try_down_inv. intros j. apply Hk.
  - destruct (p =? 0); [apply Hk|discriminate].
  - destruct rest as [|c [|d rest]]; try discriminate; [apply Hk|].
    destruct (chr_eqb c LF); [apply Hk|discriminate].
  - apply IHr1. intros p' rest' caps'. apply IHr2. exact Hk.
  - destruct (rmatch r1 p rest caps k) eqn:E1.
    + intros E. apply (IHr1 p rest caps k x Hk). congruence.
    + apply IHr2. exact Hk.
  - apply IHr. intros p' rest' caps'. apply Hk.
Qed.

Lemma match_at_start (r : regex) (pos : nat) (rest : str) (m : match_obj) :
  match_at r pos rest = Some m -> m_start m = pos.
Proof.
  unfold match_at.
  apply (rmatch_inv (fun x => m_start x = pos)). intros p' rest' caps' E.
  injection E as <-. reflexivity.
Qed.

(** A search result is a match at its own start offset. *)
Lemma search_from_sound (r : regex) (rest : str) :
  forall (pos : nat) (m : match_obj),
    search_from r pos rest = Some m ->
    exists k, m_start m = pos + k /\ match_at r (pos + k) (skipn k rest) = Some m.
Proof.
  induction rest as [|c rest IH]; intros pos m; simpl.
  - destruct (match_at r pos []) as [m'|] eqn:E; [|discriminate].
    intros H. injection H as <-. exists 0. rewrite Nat.add_0_r. simpl.
    split; [now apply match_at_start in E|exact E].
  - destruct (match_at r pos (c :: rest)) as [m'|] eqn:E.
    + intros H. injection H as <-. exists 0. rewrite Nat.add_0_r. simpl.
      split; [now apply match_at_start in E|exact E].
    + intros H. apply IH in H as (k & Hs & Hm).
      exists (S k). simpl. rewrite Nat.add_succ_r. split; assumption.
Qed.

(** A match of a pattern that opens with a literal starts at that literal. *)
Lemma search_lit_prefix (a : str) (r : regex) (t : str) (m : match_obj) :
  re_search (Cat (Lit a) r) t = Some m ->
  startswith a (skipn (m_start m) t) = true.
Proof.
  unfold re_search. intros H. apply search_from_sound in H as (k & Hs & Hm).
  simpl in Hs. subst k. unfold match_at in Hm. simpl in Hm.
  destruct (startswith a (skipn (m_start m) t)); [reflexivity|discriminate].
Qed.

(** ** Stripping *)

Lemma lstrip_snoc_nonempty (l : str) (x : char) :
  is_space x = false -> lstrip (l ++ [x]) <> [].
Proof.
  intros Hx. induction l as [|c l IH]; simpl.
  - rewrite Hx. discriminate.
  - destruct (is_space c); [exact IH|discriminate].
Qed.

Lemma strip_nonempty (x : char) (t : str) :
  is_space x = false -> truthy (strip (x :: t)) = true.
Proof.
  intros Hx. unfold strip, rstrip. simpl lstrip. rewrite Hx.
  destruct (rev (x :: t)) as [|y l] eqn:R.
  - simpl in R. destruct (rev t); discriminate.
  - (* the reversed text ends with [x] *)
    assert (E : y :: l = rev t ++ [x]) by (rewrite <- R; reflexivity).
    rewrite E.
    pose proof (lstrip_snoc_nonempty (rev t) x Hx) as Hne.
    destruct (lstrip (rev t ++ [x])) as [|z l'] eqn:L; [congruence|].
    simpl. destruct (rev l' ++ [z]) eqn:R'; [|reflexivity].
    destruct (rev l'); discriminate.
Qed.

(** ** The final checks *)

Lemma crop_truthy (t : str) : truthy t = true -> truthy (crop_to_section_three t) = true.
Proof.
  intros Ht. unfold crop_to_section_three.
  destruct (re_search re_section_three t) as [m3|] eqn:E; [|exact Ht].
  change re_section_three
    with (Cat (Lit (U "第三节")) (Cat (Star is_space) (Lit (U "管理层讨论与分析")))) in E.
  apply search_lit_prefix in E. unfold slice_from.
  destruct (skipn (m_start m3) t) as [|c tl]; [discriminate E|].
  change (U "第三节") with [31532; 19977; 33410]%N in E.
  cbn [startswith] in E. apply andb_true_iff in E as [E _].
  apply N.eqb_eq in E. subst c. now apply strip_nonempty.
Qed.

(** The captured section text is never empty. *)
Lemma captured_text_truthy (pdf_path : pdf) (start_page : nat) (mda_text : str) :
  captured_text pdf_path start_page = Some mda_text -> truthy mda_text = true.
Proof.
  unfold captured_text.
  destruct (truthy (capture_pages _ _ _)) eqn:T; [|discriminate].
  intros H. injection H as <-. now apply crop_truthy.
Qed.

(** C3, as the code has it.  After the two subsections are extracted: an
    overview shorter than 500 characters is replaced by the full captured
    section text with the white space at its two ends stripped; a future
    outlook shorter than 200 characters becomes absent; in every other
    case the extracted text is returned as it is. *)
Theorem sanity_checks_after_extraction (pdf_path : pdf) (r : mda) :
  extract_mda pdf_path = Some r ->
  business r =
    match overview_before_checks (full_mda r) with
    | Some o => if length o <? 500 then Some (strip (full_mda r)) else Some o
    | None => None
    end
  /\ future r =
       match future_before_checks (full_mda r) with
       | Some f => if length f <? 200 then None else Some f
       | None => None
       end.
Proof.
  unfold extract_mda.
  destruct (locate_start pdf_path) as [start_page|]; [|discriminate].
  destruct (captured_text pdf_path start_page) as [mda_text|] eqn:C; [|discriminate].
  apply captured_text_truthy in C.
  intros H. injection H as <-. simpl. split.
  - unfold check_overview, stripped_or. rewrite C.
    destruct (overview_before_checks mda_text) as [o|]; [|reflexivity].
    now destruct (length o <? 500).
  - unfold check_future.
    destruct (future_before_checks mda_text) as [f|]; [|reflexivity].
    now destruct (length f <? 200).
Qed.

(** In the sixty-page report the overview is short and the returned one is
    the whole section; no future outlook is found. *)
Lemma sanity_checks_after_extraction_witness :
  extract_mda report_toc_41 = Some result_toc_41
  /\ business result_toc_41 =
       match overview_before_checks (full_mda result_toc_41) with
       | Some o => if length o <? 500 then Some (strip (full_mda result_toc_41)) else Some o
       | None => None
       end
  /\ future result_toc_41 =
       match future_before_checks (full_mda result_toc_41) with
       | Some f => if length f <? 200 then None else Some f
       | None => None
       end.
Proof.
  assert (E : extract_mda report_toc_41 = Some result_toc_41)
    by (vm_compute; reflexivity).
  split; [exact E|].
  exact (sanity_checks_after_extraction report_toc_41 E).
Defined.

(** When the section-three marker is not in the captured text, the text is
    kept with the newline that closes its last page, and the replaced
    overview is not that text but its stripped form. *)
Lemma short_overview_becomes_full_text_fails :
  ~ short_overview_becomes_full_text report_broken_heading.
Proof.
  intros H.
  assert (E : business result_broken_heading = Some (full_mda result_broken_heading)).
  { apply (H result_broken_heading (strip (full_mda result_broken_heading))).
    - vm_compute. reflexivity.
    - vm_compute. reflexivity.
    - vm_compute. lia. }
  vm_compute in E. discriminate E.
Qed.

(** C5 at a failing input.  In the sixty-page report the heading
    "二、核心竞争力分析" is found at offset 25 of the captured text and the
    overview is cut there; the cut leaves 25 characters, fewer than 500, so
    the length check puts the whole section back: the returned overview
    holds the heading and the text under it. *)
Lemma core_cut_undone_by_length_check :
  exists r : mda,
    extract_mda report_toc_41 = Some r
    /\ option_map m_start (re_search re_core (full_mda r)) = Some 25
    /\ overview_before_checks (full_mda r) = Some (slice (full_mda r) 0 25)
    /\ business r = Some (full_mda r)
    /\ str_in (U "二、核心竞争力分析") (full_mda r) = true.
Proof.
  eexists. split; [vm_compute; reflexivity|].
  repeat split; vm_compute; reflexivity.
Qed.

(** ** Reflow *)

(** C6 at a failing input.  An absent or empty text gives the placeholder,
    but a text whose only line is a page number is not empty, every line of
    it is filtered, and the block returned is a paragraph with empty
    markup, not the placeholder.  The same happens for a 23-character line
    with "年度报告": [normalize] keeps it (its limit is 20 characters), the
    reflow filters it (its limit is 25). *)
Lemma filtered_input_gives_empty_paragraph :
  safe_block None = placeholder
  /\ safe_block (Some []) = placeholder
  /\ clean_text_for_pdf (U "123") = []
  /\ safe_block (Some (U "123")) = Paragraph []
  /\ safe_block (Some (U "123")) <> placeholder
  /\ normalize short_report_title = short_report_title
  /\ safe_block (Some short_report_title) = Paragraph [].
Proof.
  repeat split; try (vm_compute; reflexivity).
  vm_compute. discriminate.
Qed.

(** ** Short lines *)

Lemma merge_loop_short_keep (s : str) (tmp merged buf : list str) :
  is_short s = true -> length buf < 11 ->
  merge_loop (s :: tmp) merged buf = merge_loop tmp merged (buf ++ [s]).
Proof.
  intros Hs Hlen. cbn [merge_loop]. rewrite Hs.
  assert (E : (12 <=? length (buf ++ [s])) = false).
  { apply Nat.leb_gt. rewrite length_app. simpl. lia. }
  now rewrite E.
Qed.

Lemma merge_loop_short_flush (s : str) (tmp merged buf : list str) :
  is_short s = true -> 11 <= length buf ->
  merge_loop (s :: tmp) merged buf
  = merge_loop tmp (merged ++ [group_line (buf ++ [s])]) [].
Proof.
  intros Hs Hlen. cbn [merge_loop]. rewrite Hs.
  assert (E : (12 <=? length (buf ++ [s])) = true).
  { apply Nat.leb_le. rewrite length_app. simpl. lia. }
  rewrite E. unfold flush_cells, group_line.
  destruct (buf ++ [s]) eqn:B; [|reflexivity].
  destruct buf; discriminate.
Qed.

Lemma flush_cells_accounted (total pre0 buf post merged : list str) :
  total = pre0 ++ buf ++ post ->
  length buf < 12 ->
  Forall (fun s => is_short s = true) buf ->
  (forall m, In m merged -> accounted total m) ->
  forall m, In m (flush_cells merged buf) -> accounted total m.
Proof.
  intros Ht Hlen Hshort Hm m. unfold flush_cells.
  destruct buf as [|b buf]; [apply Hm|].
  intros Hin. apply in_app_or in Hin as [Hin|[<-|[]]]; [now apply Hm|].
  right. exists pre0, (b :: buf), post. repeat split; auto.
  - simpl. lia.
  - lia.
Qed.

Lemma merge_loop_accounted (total : list str) :
  forall tmp merged buf pre0 : list str,
    total = pre0 ++ buf ++ tmp ->
    length buf < 12 ->
    Forall (fun s => is_short s = true) buf ->
    (forall m, In m merged -> accounted total m) ->
    forall m, In m (merge_loop tmp merged buf) -> accounted total m.
Proof.
  induction tmp as [|s tmp IH]; intros merged buf pre0 Ht Hlen Hshort Hm.
  - cbn [merge_loop]. eapply flush_cells_accounted; eauto.
  - cbn [merge_loop]. destruct (is_short s) eqn:Hs.
    + assert (Hshort' : Forall (fun s => is_short s = true) (buf ++ [s])).
      { apply Forall_app. split; [assumption|]. now constructor. }
      assert (Ht' : total = pre0 ++ (buf ++ [s]) ++ tmp).
      { rewrite Ht. rewrite <- app_assoc. reflexivity. }
      destruct (12 <=? length (buf ++ [s])) eqn:E.
      * assert (Hl : 1 <= length (buf ++ [s]) <= 12)
          by (rewrite length_app; simpl; lia).
        apply (IH _ [] (pre0 ++ buf ++ [s])).
        -- rewrite Ht'. now rewrite <- !app_assoc.
        -- simpl. lia.
        -- constructor.
        -- intros m. unfold flush_cells.
           destruct (buf ++ [s]) as [|b l] eqn:B; [apply Hm|].
           intros Hin. apply in_app_or in Hin as [Hin|[<-|[]]]; [now apply Hm|].
           right. exists pre0, (b :: l), tmp. now repeat split.
      * apply Nat.leb_gt in E. apply (IH _ _ pre0); auto.
    + apply (IH _ [] (pre0 ++ buf ++ [s])).
      * rewrite Ht. now rewrite <- !app_assoc.
      * simpl. lia.
      * constructor.
      * intros m Hin. apply in_app_or in Hin as [Hin|[<-|[]]].
        -- eapply flush_cells_accounted; eauto.
        -- left. split; [|exact Hs]. rewrite Ht.
           apply in_or_app. right. apply in_or_app. right. now left.
Qed.

(** C9.  Fifteen lines of three characters each, none ending in "。", "；",
    ";", "：" or ":", are merged into exactly two lines: the first twelve
    joined by two spaces, then the last three.  And whatever the input,
    every line of the merged output is a line that is not short or joins at
    most twelve consecutive short lines. *)
Theorem short_lines_grouped_by_twelve :
  (forall ls : list str,
      length ls = 15 ->
      Forall (fun l => length l = 3 /\ re_search re_cell_end l = None) ls ->
      merge_short_lines ls = [group_line (firstn 12 ls); group_line (skipn 12 ls)])
  /\ (forall (tmp : list str) (m : str),
        In m (merge_short_lines tmp) -> accounted tmp m).
Proof.
  split.
  - intros ls Hlen Hall.
    assert (Hshort : Forall (fun l => is_short l = true) ls).
    { eapply Forall_impl; [|exact Hall]. intros l [H3 Hend].
      unfold is_short. now rewrite H3, Hend. }
    clear Hall.
    do 15 (destruct ls as [|? ls]; [discriminate Hlen|]).
    destruct ls; [|discriminate Hlen]. clear Hlen.
    repeat match goal with
           | H : Forall _ (_ :: _) |- _ => inversion H; subst; clear H
           end.
    unfold merge_short_lines.
    do 11 (rewrite merge_loop_short_keep; [|assumption|simpl; lia]).
    rewrite merge_loop_short_flush; [|assumption|simpl; lia].
    do 3 (rewrite merge_loop_short_keep; [|assumption|simpl; lia]).
    reflexivity.
  - intros tmp m. unfold merge_short_lines.
    apply (@merge_loop_accounted tmp tmp [] [] []); auto.
    + simpl. lia.
    + intros m' [].
Qed.

(** Fifteen times the line "abc". *)
Lemma short_lines_grouped_by_twelve_witness :
  merge_short_lines (repeat (U "abc") 15)
  = [U "abc  abc  abc  abc  abc  abc  abc  abc  abc  abc  abc  abc";
     U "abc  abc  abc"].
Proof.
  rewrite (proj1 short_lines_grouped_by_twelve (repeat (U "abc") 15)).
  - vm_compute. reflexivity.
  - reflexivity.
  - repeat constructor.
Defined.

(** ** Normalization *)

Lemma replace_single (c : char) (new t : str) :
  replace [c] new t = flat_map (fun x => if chr_eqb c x then new else [x]) t.
Proof.
  unfold replace. induction t as [|x t IH]; [reflexivity|].
  cbn [replace_go startswith flat_map length Nat.sub].
  rewrite andb_true_r. destruct (chr_eqb c x).
  - now rewrite IH.
  - simpl. now rewrite IH.
Qed.

(** Nothing is replaced in a text without the first character of [old]. *)
Lemma replace_absent (c : char) (old new t : str) :
  ~ In c t -> replace (c :: old) new t = t.
Proof.
  unfold replace. induction t as [|x t IH]; intros Hc; [reflexivity|].
  cbn [replace_go startswith].
  assert (E : chr_eqb c x = false).
  { apply N.eqb_neq. intros ->. apply Hc. now left. }
  rewrite E. cbn [andb]. f_equal. apply IH. intros H. apply Hc. now right.
Qed.

Lemma replace_single_chars (c : char) (new t : str) (x : char) :
  In x (replace [c] new t) -> In x new \/ (In x t /\ x <> c).
Proof.
  rewrite replace_single. intros H. apply in_flat_map in H as (y & Hy & Hx).
  destruct (chr_eqb c y) eqn:E.
  - now left.
  - destruct Hx as [<-|[]]. right. split; [assumption|].
    apply N.eqb_neq in E. congruence.
Qed.

Lemma remove_spaces_filter (t : str) : replace [SP] [] t = filter not_sp t.
Proof.
  rewrite replace_single. unfold not_sp.
  induction t as [|x t IH]; [reflexivity|]. cbn [flat_map filter].
  destruct (chr_eqb SP x); cbn [negb app]; now rewrite IH.
Qed.

(** *** Collapsing newlines *)

Lemma try_down_first (A : Type) (f : nat -> option A) (n lo : nat) (x : A) :
  f n = Some x -> try_down n lo f = Some x.
Proof. intros H. destruct n; simpl; now rewrite H. Qed.

Lemma match_at_plus (cls : char -> bool) (pos : nat) (rest : str) :
  match_at (Plus cls) pos rest =
    match run_len cls rest None with
    | O => None
    | S n => Some (MatchObj pos (pos + S n) [])
    end.
Proof.
  unfold match_at, Plus. cbn [rmatch].
  destruct (run_len cls rest None) as [|n]; [reflexivity|].
  cbn [Nat.ltb Nat.leb]. now apply try_down_first.
Qed.

Lemma sub_from_chars (r : regex) (repl rest : str) :
  forall (skip pos : nat) (x : char),
    In x (sub_from r repl skip pos rest) -> In x repl \/ In x rest.
Proof.
  induction rest as [|c rest IH]; intros skip pos x; cbn [sub_from]; [tauto|].
  destruct skip as [|k].
  - destruct (match_at r pos (c :: rest)) as [m|].
    + destruct (m_end m - pos) as [|k].
      * intros [<-|H]; [right; now left|]. apply IH in H. simpl. tauto.
      * intros H. apply in_app_or in H as [H|H]; [now left|].
        apply IH in H. simpl. tauto.
    + intros [<-|H]; [right; now left|]. apply IH in H. simpl. tauto.
  - intros H. apply IH in H. simpl. tauto.
Qed.

(** A stretch without "\n" passes through unchanged. *)
Lemma collapse_line (p q : str) (pos : nat) :
  ~ In LF p ->
  sub_from (Plus (chr_eqb LF)) [LF] 0 pos (p ++ q)
  = p ++ sub_from (Plus (chr_eqb LF)) [LF] 0 (pos + length p) q.
Proof.
  revert pos; induction p as [|c p IH]; intros pos Hp.
  - simpl. now rewrite Nat.add_0_r.
  - cbn [app sub_from]. rewrite match_at_plus. cbn [run_len].
    assert (E : chr_eqb LF c = false).
    { apply N.eqb_neq. intros <-. apply Hp. now left. }
    rewrite E. f_equal. rewrite IH.
    + simpl. now rewrite Nat.add_succ_r.
    + intros H. apply Hp. now right.
Qed.

(** A single "\n" passes through unchanged. *)
Lemma collapse_single_newline (t : str) (pos : nat) :
  match t with c :: _ => c <> LF | [] => True end ->
  sub_from (Plus (chr_eqb LF)) [LF] 0 pos (LF :: t)
  = LF :: sub_from (Plus (chr_eqb LF)) [LF] 0 (S pos) t.
Proof.
  intros Ht. cbn [sub_from]. rewrite match_at_plus.
  assert (E : run_len (chr_eqb LF) (LF :: t) None = 1).
  { cbn [run_len]. change (chr_eqb LF LF) with true. cbn iota.
    destruct t as [|c t]; [reflexivity|]. cbn [run_len].
    assert (E : chr_eqb LF c = false) by (apply N.eqb_neq; congruence).
    now rewrite E. }
  rewrite E. cbn [m_end]. replace (pos + 1 - pos) with 1 by lia.
  reflexivity.
Qed.

(** *** Lines *)

Lemma join_head (sep : str) (c : char) (l : str) (L : list str) :
  match join sep ((c :: l) :: L) with c' :: _ => c' = c | [] => False end.
Proof. destruct L; reflexivity. Qed.

Lemma join_cons (sep p : str) (p2 : str) (L : list str) :
  join sep (p :: p2 :: L) = p ++ sep ++ join sep (p2 :: L).
Proof. reflexivity. Qed.

(** Lines that are not empty and hold no "\n", joined by "\n", have no
    run of newlines to collapse. *)
Lemma collapse_join (L : list str) :
  Forall (fun l => l <> [] /\ ~ In LF l) L ->
  forall pos, sub_from (Plus (chr_eqb LF)) [LF] 0 pos (join [LF] L) = join [LF] L.
Proof.
  induction L as [|p L IH]; intros HL pos; [reflexivity|].
  inversion HL as [|? ? [Hne Hnl] HL']; subst.
  destruct L as [|p2 L].
  - cbn [join]. rewrite <- (app_nil_r p) at 1. rewrite collapse_line by assumption.
    cbn [sub_from]. apply app_nil_r.
  - rewrite join_cons. rewrite collapse_line by assumption. f_equal.
    inversion HL' as [|? ? [Hne2 Hnl2] _]; subst.
    destruct p2 as [|c p2]; [congruence|].
    cbn [app]. rewrite collapse_single_newline.
    + f_equal. apply IH. assumption.
    + pose proof (join_head [LF] c p2 L) as Hj.
      destruct (join [LF] ((c :: p2) :: L)) as [|c' q]; [exact I|].
      subst c'. intros ->. apply Hnl2. now left.
Qed.

Lemma split_line (p : str) : ~ In LF p -> split LF p = [p].
Proof.
  induction p as [|c p IH]; intros Hp; [reflexivity|]. cbn [split].
  assert (E : chr_eqb c LF = false).
  { apply N.eqb_neq. intros ->. apply Hp. now left. }
  rewrite E, IH; [reflexivity|]. intros H. apply Hp. now right.
Qed.

Lemma split_app (p q : str) :
  ~ In LF p -> split LF (p ++ LF :: q) = p :: split LF q.
Proof.
  induction p as [|c p IH]; intros Hp.
  - reflexivity.
  - cbn [app split].
    assert (E : chr_eqb c LF = false).
    { apply N.eqb_neq. intros ->. apply Hp. now left. }
    rewrite E, IH; [reflexivity|]. intros H. apply Hp. now right.
Qed.

Lemma split_join (L : list str) :
  L <> [] -> Forall (fun l => ~ In LF l) L -> split LF (join [LF] L) = L.
Proof.
  induction L as [|p L IH]; intros Hne HL; [congruence|].
  inversion HL as [|? ? Hp HL']; subst.
  destruct L as [|p2 L].
  - cbn [join]. now apply split_line.
  - rewrite join_cons. cbn [app]. rewrite split_app by assumption.
    f_equal. apply IH; [discriminate|assumption].
Qed.

Lemma split_chars (t : str) :
  forall (l : str) (x : char), In l (split LF t) -> In x l -> In x t /\ x <> LF.
Proof.
  induction t as [|c t IH]; intros l x; cbn [split].
  - intros [<-|[]] [].
  - destruct (chr_eqb c LF) eqn:E.
    + intros [<-|Hl] Hx; [destruct Hx|].
      destruct (IH l x Hl Hx). split; [now right|assumption].
    + apply N.eqb_neq in E. destruct (split LF t) as [|l0 ls] eqn:S.
      * intros [<-|[]] [<-|[]]. split; [now left|assumption].
      * intros [<-|Hl] Hx.
        -- destruct Hx as [<-|Hx]; [split; [now left|assumption]|].
           destruct (IH l0 x (or_introl eq_refl) Hx). split; [now right|assumption].
        -- destruct (IH l x (or_intror Hl) Hx). split; [now right|assumption].
Qed.

(** *** Stripped lines *)

Lemma lstrip_head_ok (t : str) : head_ok (lstrip t).
Proof.
  induction t as [|c t IH]; simpl; [exact I|].
  destruct (is_space c) eqn:E; [exact IH|exact E].
Qed.

Lemma lstrip_id (l : str) : head_ok l -> lstrip l = l.
Proof. destruct l as [|c l]; simpl; [reflexivity|]. now intros ->. Qed.

Lemma lstrip_snoc (a : str) (x : char) :
  is_space x = false -> lstrip (a ++ [x]) = lstrip a ++ [x].
Proof.
  intros Hx. induction a as [|c a IH]; simpl.
  - now rewrite Hx.
  - destruct (is_space c); [exact IH|reflexivity].
Qed.

Lemma rstrip_cons (x : char) (r : str) :
  is_space x = false -> rstrip (x :: r) = x :: rstrip r.
Proof.
  intros Hx. unfold rstrip. simpl rev. rewrite lstrip_snoc by assumption.
  rewrite rev_app_distr. reflexivity.
Qed.

Lemma strip_trimmed (t : str) : trimmed (strip t).
Proof.
  unfold trimmed, strip. split.
  - pose proof (lstrip_head_ok t) as H.
    destruct (lstrip t) as [|x r]; [exact I|].
    simpl in H. rewrite rstrip_cons by assumption. exact H.
  - unfold rstrip. rewrite rev_involutive. apply lstrip_head_ok.
Qed.

Lemma trimmed_strip (l : str) : trimmed l -> strip l = l.
Proof.
  intros [Hh Hr]. unfold strip, rstrip.
  rewrite (lstrip_id l Hh), (lstrip_id (rev l) Hr). apply rev_involutive.
Qed.

Lemma lstrip_chars (t : str) (x : char) : In x (lstrip t) -> In x t.
Proof.
  induction t as [|c t IH]; simpl; [tauto|].
  destruct (is_space c); [|tauto]. intros H. right. now apply IH.
Qed.

Lemma strip_chars (t : str) (x : char) : In x (strip t) -> In x t.
Proof.
  unfold strip, rstrip. intros H. apply in_rev in H.
  apply lstrip_chars in H. apply in_rev in H. now apply lstrip_chars.
Qed.

Lemma head_ok_filter (l : str) : head_ok l -> l <> [] ->
  head_ok (filter not_sp l) /\ filter not_sp l <> [].
Proof.
  destruct l as [|c l]; [congruence|]. simpl. intros Hc _.
  assert (E : not_sp c = true).
  { unfold not_sp. destruct (chr_eqb SP c) eqn:E; [|reflexivity].
    apply N.eqb_eq in E. subst c. discriminate Hc. }
  rewrite E. split; [exact Hc|discriminate].
Qed.

Lemma filter_rev (A : Type) (f : A -> bool) (l : list A) :
  filter f (rev l) = rev (filter f l).
Proof.
  induction l as [|a l IH]; [reflexivity|]. simpl.
  rewrite filter_app, IH. simpl. destruct (f a); [reflexivity|apply app_nil_r].
Qed.

(** Removing the spaces of a stripped line leaves a stripped line, and a
    non-empty one if the line was not empty. *)
Lemma trimmed_filter (l : str) : trimmed l -> l <> [] ->
  trimmed (filter not_sp l) /\ filter not_sp l <> [].
Proof.
  intros [Hh Hr] Hne. destruct (head_ok_filter Hh Hne) as [H1 H2].
  split; [|assumption]. split; [assumption|].
  rewrite <- filter_rev. apply head_ok_filter; [assumption|].
  intros E. apply Hne. apply (f_equal (@rev char)) in E.
  now rewrite rev_involutive in E.
Qed.

Lemma filter_join (L : list str) :
  filter not_sp (join [LF] L) = join [LF] (map (filter not_sp) L).
Proof.
  induction L as [|p L IH]; [reflexivity|].
  destruct L as [|p2 L]; [reflexivity|].
  rewrite join_cons. cbn [map]. rewrite join_cons.
  rewrite !filter_app. rewrite IH. reflexivity.
Qed.

Lemma filter_idem (A : Type) (f : A -> bool) (l : list A) :
  filter f (filter f l) = filter f l.
Proof.
  induction l as [|a l IH]; [reflexivity|]. simpl.
  destruct (f a) eqn:E; simpl; [rewrite E|]; now rewrite IH.
Qed.

Lemma join_chars (L : list str) (x : char) :
  In x (join [LF] L) -> x = LF \/ exists l, In l L /\ In x l.
Proof.
  induction L as [|p L IH]; [intros []|].
  destruct L as [|p2 L].
  - cbn [join]. intros H. right. exists p. split; [now left|assumption].
  - rewrite join_cons. intros H. apply in_app_or in H as [H|H].
    + right. exists p. split; [now left|assumption].
    + apply in_app_or in H as [[<-|[]]|H]; [now left|].
      apply IH in H as [->|(l & Hl & Hx)]; [now left|].
      right. exists l. split; [now right|assumption].
Qed.

(** *** Idempotence *)

Lemma filter_all (A : Type) (f : A -> bool) (l : list A) :
  (forall x, In x l -> f x = true) -> filter f l = l.
Proof.
  induction l as [|a l IH]; intros H; [reflexivity|]. simpl.
  rewrite (H a (or_introl eq_refl)). f_equal. apply IH.
  intros x Hx. apply H. now right.
Qed.

Lemma map_id_in (A : Type) (f : A -> A) (l : list A) :
  (forall x, In x l -> f x = x) -> map f l = l.
Proof.
  induction l as [|a l IH]; intros H; [reflexivity|]. simpl.
  rewrite (H a (or_introl eq_refl)). f_equal. apply IH.
  intros x Hx. apply H. now right.
Qed.

(** Where the characters of the unified text come from. *)
Lemma unify_newlines_chars (t : str) (x : char) :
  In x (unify_newlines t) -> x <> CR /\ x <> FF /\ (x = LF \/ In x t).
Proof.
  unfold unify_newlines, collapse_newlines, re_sub. intros H.
  apply sub_from_chars in H as [[<-|[]]|H]; [repeat split; try discriminate; now left|].
  apply replace_single_chars in H as [[<-|[]]|[H Hff]];
    [repeat split; try discriminate; now left|].
  apply replace_single_chars in H as [[<-|[]]|[H Hcr]];
    [repeat split; try discriminate; now left|].
  repeat split; try assumption. right.
  (* the first replacement only removes characters *)
  clear Hff Hcr. revert H. unfold replace.
  generalize 0 at 1. induction t as [|c t IH]; intros skip; cbn [replace_go]; [tauto|].
  destruct skip as [|k].
  - destruct (startswith [CR; LF] (c :: t)) eqn:E.
    + intros Hin. apply in_app_or in Hin as [[<-|[]]|Hin].
      * (* the "\n" written for "\r\n" is the second character *)
        cbn [startswith] in E. apply andb_true_iff in E as [_ E].
        destruct t as [|d t]; [discriminate E|].
        cbn [startswith] in E. apply andb_true_iff in E as [E _].
        apply N.eqb_eq in E. subst d. right. now left.
      * right. eapply IH. exact Hin.
    + intros [<-|Hin]; [now left|]. right. eapply IH. exact Hin.
  - intros Hin. right. eapply IH. exact Hin.
Qed.

Lemma surviving_line_ok (t l : str) :
  In l (surviving_lines t) ->
  l <> [] /\ trimmed l /\ noise_line l = false
  /\ (forall x, In x l -> x <> LF /\ x <> CR /\ x <> FF /\ In x t).
Proof.
  unfold surviving_lines, kept_lines. intros H.
  apply filter_In in H as [H Hn]. apply negb_true_iff in Hn.
  apply in_map_iff in H as (raw & <- & Hraw).
  split; [|split; [|split]].
  - intros E. rewrite E in Hn. discriminate Hn.
  - apply strip_trimmed.
  - exact Hn.
  - intros x Hx. apply strip_chars in Hx.
    destruct (split_chars _ _ _ Hraw Hx) as [Hin Hlf].
    apply unify_newlines_chars in Hin as (Hcr & Hff & [->|Hin]); [congruence|].
    repeat split; assumption.
Qed.

(** [normalize] joins the surviving lines, each with its spaces removed. *)
Lemma normalize_lines (t : str) :
  normalize t = join [LF] (map (filter not_sp) (surviving_lines t)).
Proof.
  unfold normalize. fold (surviving_lines t).
  rewrite remove_spaces_filter, filter_join.
  unfold collapse_newlines, re_sub. apply collapse_join.
  apply Forall_forall. intros l' Hl'.
  apply in_map_iff in Hl' as (l & <- & Hl).
  destruct (surviving_line_ok _ _ Hl) as (Hne & Htr & _ & Hch).
  split.
  - now apply trimmed_filter.
  - intros Hin. apply filter_In in Hin as [Hin _]. now apply Hch in Hin.
Qed.

Lemma joined_lines_unified (L : list str) :
  (forall l x, In l L -> In x l -> x <> LF /\ x <> CR /\ x <> FF) ->
  (forall l, In l L -> l <> []) ->
  unify_newlines (join [LF] L) = join [LF] L.
Proof.
  intros Hch Hne.
  assert (Hno : forall c, c = CR \/ c = FF -> ~ In c (join [LF] L)).
  { intros c Hc Hin. apply join_chars in Hin as [->|(l & Hl & Hx)].
    - destruct Hc; discriminate.
    - destruct (Hch l c Hl Hx) as (_ & Hcr & Hff). destruct Hc; congruence. }
  unfold unify_newlines.
  rewrite (replace_absent CR [LF] [LF]) by (apply Hno; now left).
  rewrite (replace_absent CR [] [LF]) by (apply Hno; now left).
  rewrite (replace_absent FF [] [LF]) by (apply Hno; now right).
  unfold collapse_newlines, re_sub. apply collapse_join.
  apply Forall_forall. intros l Hl. split; [now apply Hne|].
  intros Hin. now destruct (Hch l LF Hl Hin) as [Hlf _].
Qed.

(** The surviving lines of the normalized text are the surviving lines of
    the text with their spaces removed, as long as none of these has
    become a noise line. *)
Lemma surviving_lines_of_normalized (t : str) :
  Forall (fun l => noise_line (replace [SP] [] l) = false) (surviving_lines t) ->
  surviving_lines (normalize t) = map (filter not_sp) (surviving_lines t).
Proof.
  intros Hst. rewrite normalize_lines.
  assert (Hok : forall l', In l' (map (filter not_sp) (surviving_lines t)) ->
                 l' <> [] /\ trimmed l' /\ noise_line l' = false
                 /\ forall x, In x l' -> x <> LF /\ x <> CR /\ x <> FF).
  { intros l' Hl'. apply in_map_iff in Hl' as (l & <- & Hl).
    destruct (surviving_line_ok _ _ Hl) as (Hne & Htr & _ & Hch).
    destruct (trimmed_filter Htr Hne) as [Htr' Hne'].
    repeat split; try assumption; try (now destruct Htr').
    - rewrite Forall_forall in Hst. rewrite <- remove_spaces_filter. now apply Hst.
    - apply filter_In in H as [H _]. now apply Hch in H.
    - apply filter_In in H as [H _]. now apply Hch in H.
    - apply filter_In in H as [H _]. now apply Hch in H. }
  remember (map (filter not_sp) (surviving_lines t)) as L' eqn:EL.
  unfold surviving_lines at 1.
  rewrite joined_lines_unified.
  - destruct L' as [|p L'].
    + reflexivity.
    + unfold kept_lines. rewrite split_join.
      * rewrite map_id_in.
        -- apply filter_all. intros l Hl. apply negb_true_iff. now apply Hok.
        -- intros l Hl. apply trimmed_strip. now apply Hok.
      * discriminate.
      * apply Forall_forall. intros l Hl Hin.
        destruct (Hok l Hl) as (_ & _ & _ & Hch). now apply Hch in Hin.
  - intros l x Hl Hx. now apply (Hok l Hl).
  - intros l Hl. now apply Hok.
Qed.

(** C7, as the code has it.  Normalizing its own output gives that output
    again for every text whose surviving lines are still no noise lines
    once their spaces are removed. *)
Theorem normalize_idempotent_on_stable_lines (t : str) :
  Forall (fun l => noise_line (replace [SP] [] l) = false) (surviving_lines t) ->
  normalize (normalize t) = normalize t.
Proof.
  intros Hst. rewrite (normalize_lines (normalize t)).
  rewrite (@surviving_lines_of_normalized t Hst), normalize_lines.
  f_equal. rewrite map_map. apply map_ext. intros l. apply filter_idem.
Qed.

(** The lines "a b" and "c" survive, and "ab" and "c" are no noise lines. *)
Lemma normalize_idempotent_on_stable_lines_witness :
  normalize spaced_lines = U "ab
c"
  /\ normalize (normalize spaced_lines) = normalize spaced_lines.
Proof.
  split; [vm_compute; reflexivity|].
  apply normalize_idempotent_on_stable_lines.
  assert (E : surviving_lines spaced_lines = [U "a b"; U "c"])
    by (vm_compute; reflexivity).
  rewrite E. repeat (constructor; [vm_compute; reflexivity|]). constructor.
Defined.

(** On a text without a space the lines survive a second pass as they
    are, and [normalize] is idempotent. *)
Lemma normalize_idempotent_without_spaces (t : str) :
  ~ In SP t -> normalize (normalize t) = normalize t.
Proof.
  intros Hsp.
  assert (Hst : Forall (fun l => noise_line (replace [SP] [] l) = false)
                  (surviving_lines t)).
  { apply Forall_forall. intros l Hl.
    destruct (surviving_line_ok _ _ Hl) as (_ & _ & Hn & Hch).
    rewrite remove_spaces_filter, filter_all; [exact Hn|].
    intros x Hx. unfold not_sp. apply negb_true_iff. apply N.eqb_neq.
    intros <-. apply Hsp. now apply Hch. }
  rewrite (normalize_lines (normalize t)).
  rewrite (@surviving_lines_of_normalized t Hst), normalize_lines.
  f_equal. rewrite map_map. apply map_ext. intros l. apply filter_idem.
Qed.

(** The line "1 2" survives the first pass as "12", a bare page number,
    which the second pass drops. *)
Lemma normalize_not_idempotent :
  normalize (U "1 2") = U "12"
  /\ normalize (normalize (U "1 2")) = []
  /\ normalize (normalize (U "1 2")) <> normalize (U "1 2").
Proof.
  split; [vm_compute; reflexivity|].
  split; [vm_compute; reflexivity|].
  vm_compute. discriminate.
Qed.

(* ================================================================= *)
(** * Further properties of the code *)

(** ** What normalize returns *)

(** Every character of the normalized text is a newline or a character of
    the input, and none is a space, a carriage return or a form feed. *)
Theorem normalize_alphabet (t : str) (x : char) :
  In x (normalize t) ->
  x <> SP /\ x <> CR /\ x <> FF /\ (x = LF \/ In x t).
Proof.
  rewrite normalize_lines. intros H.
  apply join_chars in H as [->|(l' & Hl' & Hx)].
  - repeat split; try discriminate. now left.
  - apply in_map_iff in Hl' as (l & <- & Hl).
    apply filter_In in Hx as [Hx Hsp].
    destruct (surviving_line_ok _ _ Hl) as (_ & _ & _ & Hch).
    destruct (Hch x Hx) as (_ & Hcr & Hff & Hin).
    repeat split; try assumption; [|now right].
    intros ->. discriminate Hsp.
Qed.

(** The letter "a" of the normalized example comes from the input. *)
Lemma normalize_alphabet_witness :
  97%N <> SP /\ 97%N <> CR /\ 97%N <> FF /\ (97%N = LF \/ In 97%N spaced_lines).
Proof.
  apply (@normalize_alphabet spaced_lines 97%N).
  vm_compute. now left.
Defined.

Lemma head_ok_join (p : str) (L : list str) :
  p <> [] -> head_ok p -> head_ok (join [LF] (p :: L)).
Proof.
  destruct p as [|c p]; [congruence|]. intros _ Hc.
  destruct L; exact Hc.
Qed.

Lemma head_ok_rev_join (L : list str) :
  L <> [] ->
  Forall (fun l => l <> [] /\ trimmed l) L ->
  head_ok (rev (join [LF] L)).
Proof.
  induction L as [|p L IH]; intros Hne HL; [congruence|].
  inversion HL as [|? ? [Hp [_ Hr]] HL']; subst.
  destruct L as [|p2 L]; [exact Hr|].
  rewrite join_cons, !rev_app_distr.
  assert (Hj : head_ok (rev (join [LF] (p2 :: L)))) by (apply IH; [discriminate|assumption]).
  assert (Hn : rev (join [LF] (p2 :: L)) <> []).
  { inversion HL' as [|? ? [Hp2 _] _]; subst.
    destruct p2 as [|c p2]; [congruence|].
    pose proof (join_head [LF] c p2 L) as Hh.
    destruct (join [LF] ((c :: p2) :: L)) as [|c' q]; [destruct Hh|].
    simpl. intros E. apply app_eq_nil in E as [_ E]. discriminate E. }
  destruct (rev (join [LF] (p2 :: L))) as [|c q]; [congruence|]. exact Hj.
Qed.

Lemma normalized_lines_ok (t : str) :
  Forall (fun l => l <> [] /\ trimmed l /\ ~ In LF l)
    (map (filter not_sp) (surviving_lines t)).
Proof.
  apply Forall_forall. intros l' Hl'.
  apply in_map_iff in Hl' as (l & <- & Hl).
  destruct (surviving_line_ok _ _ Hl) as (Hne & Htr & _ & Hch).
  destruct (trimmed_filter Htr Hne) as [Htr' Hne'].
  repeat split; try assumption; try (now destruct Htr').
  intros Hin. apply filter_In in Hin as [Hin _]. now apply Hch in Hin.
Qed.

Lemma normalize_trimmed (t : str) : trimmed (normalize t).
Proof.
  pose proof (normalized_lines_ok t) as HL. rewrite normalize_lines.
  destruct (map (filter not_sp) (surviving_lines t)) as [|p L] eqn:E.
  - split; exact I.
  - split.
    + inversion HL as [|? ? (Hne & [Hh _] & _) _]; subst.
      now apply head_ok_join.
    + apply head_ok_rev_join; [discriminate|].
      eapply Forall_impl; [|exact HL]. intros l (Hne & Htr & _). now split.
Qed.

(** The normalized text is made of lines that are not empty and have no
    white space at either end: it has no blank line, and stripping it
    changes nothing. *)
Theorem normalize_lines_trimmed (t : str) :
  (exists ls : list str,
      normalize t = join [LF] ls
      /\ Forall (fun l => l <> [] /\ ~ In LF l /\ strip l = l) ls)
  /\ strip (normalize t) = normalize t.
Proof.
  split.
  - exists (map (filter not_sp) (surviving_lines t)).
    split; [apply normalize_lines|].
    eapply Forall_impl; [|apply normalized_lines_ok]. intros l (Hne & Htr & Hnl).
    repeat split; try assumption. now apply trimmed_strip.
  - apply trimmed_strip, normalize_trimmed.
Qed.

(** ** The ordinal table, both numeral systems *)

Ltac successor_at i :=
  first
    [ exists i; split;
      [lia | split; [first [left; reflexivity | right; reflexivity] | reflexivity]]
    | match i with
      | 18 => fail 1
      | _ => successor_at (S i)
      end ].

Ltac successor_case :=
  first [left; reflexivity | right; successor_at 0].

(** The candidates are the successor of the ordinal in the table, in both
    numeral systems: the Chinese and the Arabic form of the entry [i]
    (below the last) both give the two forms of the entry [i + 1], and
    nothing else ever comes out but the empty list. *)
Theorem next_ordinal_is_successor :
  (forall i : nat,
      i < 19 ->
      _next_ordinal_candidates (nth i cn_list [])
      = [nth (S i) cn_list []; nth (S i) (map snd cn_to_ar) []]
      /\ _next_ordinal_candidates (nth i (map snd cn_to_ar) [])
         = [nth (S i) cn_list []; nth (S i) (map snd cn_to_ar) []])
  /\ (forall o : str,
        _next_ordinal_candidates o = []
        \/ exists i : nat,
             i < 19
             /\ (o = nth i cn_list [] \/ o = nth i (map snd cn_to_ar) [])
             /\ _next_ordinal_candidates o
                = [nth (S i) cn_list []; nth (S i) (map snd cn_to_ar) []]).
Proof.
  split.
  - intros i Hi.
    do 19 (destruct i as [|i]; [split; vm_compute; reflexivity|]). lia.
  - intros o. unfold _next_ordinal_candidates.
    destruct (is_some (re_fullmatch (Rep is_decimal 1 (Some 2)) o)) eqn:F.
    + destruct (dict_get ar_to_cn o) as [cn|] eqn:G; [|now left].
      unfold dict_get in G.
      destruct (find (fun kv => str_eqb (fst kv) o) ar_to_cn) as [kv|] eqn:Hf;
        [|discriminate G].
      apply find_some in Hf as [Hin Heq]. apply str_eqb_eq in Heq.
      injection G as <-. subst o. clear F.
      vm_compute in Hin.
      repeat (destruct Hin as [<-|Hin]; [successor_case|]).
      destruct Hin.
    + destruct (list_index cn_list o) as [idx|] eqn:I; [|now left].
      pose proof (list_index_in _ _ I) as Hin. clear F.
      vm_compute in Hin.
      repeat (destruct Hin as [<-|Hin];
              [vm_compute in I; injection I as <-; successor_case|]).
      destruct Hin.
Qed.

(** The entry 10: "十一" and "11" both give "十二" and "12". *)
Lemma next_ordinal_is_successor_witness :
  _next_ordinal_candidates (U "十一") = [U "十二"; U "12"]
  /\ _next_ordinal_candidates (U "11") = [U "十二"; U "12"].
Proof.
  apply (proj1 next_ordinal_is_successor 10). lia.
Defined.

(** ** Slices are pieces of the text *)

Lemma piece_refl (t : str) : piece_of t t.
Proof. exists [], []. simpl. now rewrite app_nil_r. Qed.

Lemma piece_trans (a b c : str) : piece_of a b -> piece_of b c -> piece_of a c.
Proof.
  intros (p1 & q1 & ->) (p2 & q2 & ->).
  exists (p2 ++ p1), (q1 ++ q2). now rewrite <- !app_assoc.
Qed.

Lemma lstrip_suffix (t : str) : exists pre, t = pre ++ lstrip t.
Proof.
  induction t as [|c t [pre IH]]; [now exists []|]. simpl.
  destruct (is_space c); [|now exists []].
  exists (c :: pre). simpl. now f_equal.
Qed.

Lemma strip_piece (t : str) : piece_of (strip t) t.
Proof.
  unfold strip, rstrip.
  destruct (lstrip_suffix t) as [pre Hpre].
  destruct (lstrip_suffix (rev (lstrip t))) as [post Hpost].
  exists pre, (rev post).
  rewrite <- rev_app_distr, <- Hpost, rev_involutive. exact Hpre.
Qed.

Lemma slice_piece (t : str) (a b : nat) : piece_of (slice t a b) t.
Proof.
  unfold slice. exists (firstn a t), (skipn (b - a) (skipn a t)).
  now rewrite firstn_skipn, firstn_skipn.
Qed.

Lemma slice_from_piece (t : str) (a : nat) : piece_of (slice_from t a) t.
Proof.
  unfold slice_from. exists (firstn a t), []. now rewrite app_nil_r, firstn_skipn.
Qed.

Lemma strip_slice_piece (t : str) (a b : nat) : piece_of (strip (slice t a b)) t.
Proof. eapply piece_trans; [apply strip_piece|apply slice_piece]. Qed.

Lemma strip_slice_from_piece (t : str) (a : nat) : piece_of (strip (slice_from t a)) t.
Proof. eapply piece_trans; [apply strip_piece|apply slice_from_piece]. Qed.

Lemma bracket_slice_piece (text : str) (start_idx : option Z) (r : str) :
  _slice_to_next_bracket_heading text start_idx = Some r -> piece_of r text.
Proof.
  unfold _slice_to_next_bracket_heading.
  destruct (checked_start start_idx) as [s|]; [|discriminate].
  intros H. injection H as <-. apply strip_slice_piece.
Qed.

Lemma title_slice_piece (text : str) (start_idx : option Z) (kws : list str) (r : str) :
  _slice_to_next_heading_with_title_keywords text start_idx kws = Some r ->
  piece_of r text.
Proof.
  unfold _slice_to_next_heading_with_title_keywords.
  destruct (checked_start start_idx) as [s|]; [|discriminate].
  destruct (opt_list _ ++ opt_list _) as [|p ps]; [discriminate|].
  intros H. injection H as <-. apply strip_slice_piece.
Qed.

Lemma ordinal_slice_piece (text : str) (start_idx : option Z) (ord r : str) :
  _slice_to_next_ordinal text start_idx ord = Some r -> piece_of r text.
Proof.
  unfold _slice_to_next_ordinal, _slice_to_next_major_heading, slice_by_ordinal.
  destruct (checked_start start_idx) as [s|]; [|discriminate].
  destruct (next_major_heading text s) as [e|].
  - destruct (truthy (strip (slice text s e)));
      intros H; injection H as <-; apply strip_slice_piece.
  - intros H. injection H as <-. apply strip_slice_piece.
Qed.





Lemma next_ordinal_positions_after (text : str) (s : nat) (cands : list str) (p : nat) :
  In p (next_ordinal_positions text s cands) -> s < p.
Proof.
  unfold next_ordinal_positions. intros H.
  apply in_flat_map in H as (cand & _ & H).
  destruct (truthy cand); [|destruct H].
  destruct (re_search _ _) as [m|]; [|destruct H].
  destruct H as [<-|[]]. lia.
Qed.

(** For a start offset inside the text, [_slice_to_next_ordinal] always
    answers, and its answer is the stripped form of a non-empty stretch of
    the text that begins at the start offset: the end it computes is never
    at or before the start. *)
Theorem ordinal_slice_starts_at_start (text : str) (s : nat) (ord : str) :
  s < length text ->
  exists n : nat,
    1 <= n
    /\ _slice_to_next_ordinal text (Some (Z.of_nat s)) ord
       = Some (strip (firstn n (skipn s text))).
Proof.
  intros Hs.
  unfold _slice_to_next_ordinal, _slice_to_next_major_heading.
  rewrite checked_start_of_nat.
  assert (Hord : exists n, 1 <= n
                   /\ slice_by_ordinal text s ord = strip (firstn n (skipn s text))).
  { unfold slice_by_ordinal, slice.
    destruct (next_ordinal_positions text s (_next_ordinal_candidates ord))
      as [|p ps] eqn:E.
    - exists (length text - s). split; [lia|reflexivity].
    - exists (min_list p ps - s). split; [|reflexivity].
      destruct (min_list_least p ps) as [Hin _]. rewrite <- E in Hin.
      apply next_ordinal_positions_after in Hin. lia. }
  destruct (next_major_heading text s) as [e|] eqn:M.
  - destruct (truthy (strip (slice text s e))).
    + unfold next_major_heading in M.
      destruct (first_titled _ _ _ _) as [m|]; [|discriminate M].
      injection M as <-. exists (s + 1 + m_start m - s). split; [lia|reflexivity].
    + destruct Hord as (n & Hn & ->). now exists n.
  - destruct Hord as (n & Hn & ->). now exists n.
Qed.

(** In the outlook example the slice from offset 0 is 31 characters long. *)
Lemma ordinal_slice_starts_at_start_witness :
  exists n : nat,
    1 <= n
    /\ _slice_to_next_ordinal outlook_with_nested_list (Some (Z.of_nat 0)) (U "二")
       = Some (strip (firstn n (skipn 0 outlook_with_nested_list))).
Proof.
  apply ordinal_slice_starts_at_start. vm_compute. lia.
Defined.

(** ** The located start page *)


(** The start page the locator returns never holds a table-of-contents
    marker, whichever way it was found, and so is never the contents page
    itself. *)
Theorem start_page_is_no_contents_page (pdf_path : pdf) (start_page : nat) :
  locate_start pdf_path = Some start_page ->
  has_toc_marker (extract_text pdf_path [start_page]) = false
  /\ find_toc_page pdf_path <> Some start_page.
Proof.
  intros H.
  assert (Hm : has_toc_marker (extract_text pdf_path [start_page]) = false).
  { unfold locate_start in H.
    destruct (start_from_toc pdf_path (toc_pages_of (find_toc_page pdf_path)))
      as [sp|] eqn:T.
    - injection H as <-. unfold start_from_toc in T.
      destruct (toc_page_num pdf_path _) as [n|]; [|discriminate T].
      destruct (5 <=? n); [|discriminate T].
      destruct (n - 1 <? 5); [discriminate T|].
      rewrite has_toc_marker_truthy in T.
      destruct (has_toc_marker (extract_text pdf_path [n - 1])) eqn:M;
        [discriminate T|].
      destruct (existsb (Nat.eqb (n - 1)) _); [discriminate T|].
      injection T as <-. exact M.
    - unfold scan_for_start in H. apply find_some in H as [_ H].
      apply andb_true_iff in H as [H _]. apply andb_true_iff in H as [_ H].
      now apply negb_true_iff in H. }
  split; [exact Hm|].
  intros E. unfold find_toc_page in E. apply find_some in E as [_ E].
  apply andb_true_iff in E as [_ E]. congruence.
Qed.

(** In the sixty-page report the start is page 40 and the contents are on
    page 2. *)
Lemma start_page_is_no_contents_page_witness :
  has_toc_marker (extract_text report_toc_41 [40]) = false
  /\ find_toc_page report_toc_41 <> Some 40.
Proof.
  apply start_page_is_no_contents_page. vm_compute. reflexivity.
Defined.





(** ** The captured section *)

(** A page with a section-four marker ends the capture: that page and all
    pages after it add nothing, whatever they hold. *)
Theorem capture_stops_at_section_four (pdf_path : pdf) (pre post : list nat)
    (q : nat) (mda_text : str) :
  is_some (re_search re_section_four (extract_text pdf_path [q])) = true ->
  capture_pages pdf_path (pre ++ q :: post) mda_text
  = capture_pages pdf_path pre mda_text.
Proof.
  intros Hq. revert mda_text. induction pre as [|p pre IH]; intros mda_text.
  - cbn [app capture_pages].
    destruct (extract_text pdf_path [q]) as [|c page] eqn:E.
    + discriminate Hq.
    + cbn [truthy negb]. now rewrite Hq.
  - cbn [app capture_pages].
    destruct (negb (truthy (extract_text pdf_path [p]))); [apply IH|].
    destruct (is_some (re_search re_section_four (extract_text pdf_path [p])));
      [reflexivity|apply IH].
Qed.

(** In the sixty-page report page 43 opens section four: capturing pages
    40 to 59 is capturing pages 40 to 42. *)
Lemma capture_stops_at_section_four_witness :
  capture_pages report_toc_41 (range 40 43 ++ 43 :: range 44 60) []
  = capture_pages report_toc_41 (range 40 43) [].
Proof.
  apply capture_stops_at_section_four. vm_compute. reflexivity.
Defined.

(** ** What extract_mda returns *)

Lemma head_ok_app (a b : str) :
  head_ok a -> (a = [] -> head_ok b) -> head_ok (a ++ b).
Proof. destruct a as [|c a]; simpl; auto. Qed.

Lemma extract_text_head_ok (pdf_path : pdf) (page_numbers : list nat) :
  head_ok (extract_text pdf_path page_numbers).
Proof.
  unfold extract_text. destruct (truthy (pdf_path page_numbers)); [|exact I].
  apply normalize_trimmed.
Qed.

Lemma capture_pages_head_ok (pdf_path : pdf) (ps : list nat) :
  forall mda_text, head_ok mda_text -> head_ok (capture_pages pdf_path ps mda_text).
Proof.
  induction ps as [|p ps IH]; intros mda_text Hh; cbn [capture_pages]; [exact Hh|].
  destruct (negb (truthy (extract_text pdf_path [p]))) eqn:T; [now apply IH|].
  destruct (is_some (re_search re_section_four (extract_text pdf_path [p])));
    [exact Hh|].
  apply IH. apply head_ok_app; [exact Hh|]. intros _.
  apply head_ok_app; [apply extract_text_head_ok|].
  intros E. rewrite E in T. discriminate T.
Qed.

Lemma strip_cons (x : char) (t : str) :
  is_space x = false -> strip (x :: t) = x :: rstrip t.
Proof.
  intros Hx. unfold strip. cbn [lstrip]. rewrite Hx. now apply rstrip_cons.
Qed.

Lemma rstrip_keeps_prefix (a : str) :
  Forall (fun x => is_space x = false) a ->
  forall t, startswith a t = true -> startswith a (rstrip t) = true.
Proof.
  induction a as [|x a IH]; intros Ha t H; [reflexivity|].
  inversion Ha as [|? ? Hx Ha']; subst.
  destruct t as [|y t]; [discriminate H|].
  cbn [startswith] in H. apply andb_true_iff in H as [Hxy H].
  apply N.eqb_eq in Hxy. subst y.
  rewrite rstrip_cons by assumption. cbn [startswith].
  apply andb_true_iff. split; [apply N.eqb_refl|now apply IH].
Qed.

(** The cropped text opens with "第三节" when the marker was found. *)
Lemma crop_opens_with_marker (t : str) (m3 : match_obj) :
  re_search re_section_three t = Some m3 ->
  startswith (U "第三节") (crop_to_section_three t) = true.
Proof.
  intros E. unfold crop_to_section_three. rewrite E.
  change re_section_three
    with (Cat (Lit (U "第三节")) (Cat (Star is_space) (Lit (U "管理层讨论与分析")))) in E.
  apply search_lit_prefix in E. unfold slice_from.
  destruct (skipn (m_start m3) t) as [|c tl] eqn:S; [discriminate E|].
  assert (Hc : c = 31532%N).
  { change (U "第三节") with [31532; 19977; 33410]%N in E.
    cbn [startswith] in E. apply andb_true_iff in E as [E _].
    apply N.eqb_eq in E. congruence. }
  assert (Hsp : is_space c = false) by (subst c; reflexivity).
  rewrite strip_cons by assumption.
  rewrite <- (@rstrip_cons c tl Hsp). apply rstrip_keeps_prefix; [|exact E].
  repeat constructor.
Qed.

Lemma captured_text_head (pdf_path : pdf) (start_page : nat) (mda_text : str) :
  captured_text pdf_path start_page = Some mda_text ->
  exists c tl, mda_text = c :: tl /\ is_space c = false.
Proof.
  intros C. pose proof (captured_text_truthy _ _ C) as T.
  unfold captured_text in C.
  destruct (truthy (capture_pages _ _ _)) eqn:T'; [|discriminate C].
  injection C as <-.
  assert (Hh : head_ok (crop_to_section_three
                          (capture_pages pdf_path (range start_page (start_page + 200)) []))).
  { destruct (re_search re_section_three
                (capture_pages pdf_path (range start_page (start_page + 200)) []))
      as [m3|] eqn:E.
    - pose proof (crop_opens_with_marker _ E) as P.
      destruct (crop_to_section_three _) as [|c tl]; [exact I|].
      change (U "第三节") with [31532; 19977; 33410]%N in P.
      cbn [startswith] in P. apply andb_true_iff in P as [P _].
      apply N.eqb_eq in P. subst c. reflexivity.
    - unfold crop_to_section_three. rewrite E.
      apply capture_pages_head_ok. exact I. }
  destruct (crop_to_section_three _) as [|c tl]; [discriminate T|].
  exists c, tl. split; [reflexivity|exact Hh].
Qed.

Lemma overview_before_checks_some (mda_text : str) :
  truthy mda_text = true -> exists o, overview_before_checks mda_text = Some o.
Proof.
  intros T. unfold overview_before_checks, stripped_or. rewrite T.
  destruct (re_search re_core mda_text) as [m|].
  - destruct (0 <? m_start m); [eauto|].
    destruct (_slice_to_next_heading_with_title_keywords _ _ _) as [[|c sl]|]; eauto.
  - destruct (_slice_to_next_heading_with_title_keywords _ _ _) as [[|c sl]|]; eauto.
Qed.

(** Whenever [extract_mda] returns a result: the industry field is absent;
    the full section text is not empty and does not begin with white
    space; the overview is present and not empty; the future outlook is
    absent or at least 200 characters long. *)
Theorem mda_result_shape (pdf_path : pdf) (r : mda) :
  extract_mda pdf_path = Some r ->
  industry r = None
  /\ (exists c tl, full_mda r = c :: tl /\ is_space c = false)
  /\ (exists b, business r = Some b /\ b <> [])
  /\ (future r = None \/ exists f, future r = Some f /\ 200 <= length f).
Proof.
  unfold extract_mda.
  destruct (locate_start pdf_path) as [start_page|]; [|discriminate].
  destruct (captured_text pdf_path start_page) as [mda_text|] eqn:C; [|discriminate].
  pose proof (captured_text_truthy _ _ C) as T.
  destruct (captured_text_head _ _ C) as (c & tl & Hm & Hc).
  intros H. injection H as <-. cbn [industry full_mda business future].
  split; [reflexivity|]. split; [now exists c, tl|]. split.
  - destruct (overview_before_checks_some _ T) as [o Ho]. rewrite Ho.
    unfold check_overview, stripped_or. rewrite T.
    destruct (length o <? 500) eqn:L.
    + exists (strip mda_text). split; [reflexivity|].
      rewrite Hm. pose proof (@strip_nonempty c tl Hc) as Hn.
      destruct (strip (c :: tl)); [discriminate Hn|discriminate].
    + exists o. split; [reflexivity|]. apply Nat.ltb_ge in L.
      destruct o; [simpl in L; lia|discriminate].
  - unfold check_future. destruct (future_before_checks mda_text) as [f|]; [|now left].
    destruct (length f <? 200) eqn:L; [now left|].
    right. exists f. split; [reflexivity|]. now apply Nat.ltb_ge in L.
Qed.

Lemma mda_result_shape_witness :
  industry result_toc_41 = None
  /\ (exists c tl, full_mda result_toc_41 = c :: tl /\ is_space c = false)
  /\ (exists b, business result_toc_41 = Some b /\ b <> [])
  /\ (future result_toc_41 = None
      \/ exists f, future result_toc_41 = Some f /\ 200 <= length f).
Proof.
  apply (@mda_result_shape report_toc_41). vm_compute. reflexivity.
Defined.

(** Both subsections of a result are contiguous pieces of its full section
    text: nothing is returned that the captured section does not hold. *)
Theorem mda_sections_are_pieces (pdf_path : pdf) (r : mda) :
  extract_mda pdf_path = Some r ->
  (forall b, business r = Some b -> piece_of b (full_mda r))
  /\ (forall f, future r = Some f -> piece_of f (full_mda r)).
Proof.
  unfold extract_mda.
  destruct (locate_start pdf_path) as [start_page|]; [|discriminate].
  destruct (captured_text pdf_path start_page) as [mda_text|]; [|discriminate].
  intros H. injection H as <-. cbn [full_mda business future]. split.
  - assert (Ho : forall o, overview_before_checks mda_text = Some o ->
                           piece_of o mda_text).
    { unfold overview_before_checks, stripped_or. intros o.
      assert (Hs : forall o',
                 match _slice_to_next_heading_with_title_keywords mda_text
                         (Some 0%Z) stop_titles with
                 | Some ((_ :: _) as sliced) => Some sliced
                 | _ => if truthy mda_text then Some (strip mda_text) else None
                 end = Some o' -> piece_of o' mda_text).
      { intros o'.
        destruct (_slice_to_next_heading_with_title_keywords mda_text (Some 0%Z) stop_titles)
          as [[|c sl]|] eqn:E.
        - destruct (truthy mda_text); [|discriminate].
          intros H. injection H as <-. apply strip_piece.
        - intros H. injection H as <-. eapply title_slice_piece; eauto.
        - destruct (truthy mda_text); [|discriminate].
          intros H. injection H as <-. apply strip_piece. }
      destruct (re_search re_core mda_text) as [m|]; [|apply Hs].
      destruct (0 <? m_start m); [|apply Hs].
      intros H. injection H as <-. apply strip_slice_piece. }
    intros b. unfold check_overview, stripped_or.
    destruct (overview_before_checks mda_text) as [o|]; [|discriminate].
    destruct (length o <? 500).
    + destruct (truthy mda_text).
      * intros H. injection H as <-. apply strip_piece.
      * intros H. injection H as <-. now apply Ho.
    + intros H. injection H as <-. now apply Ho.
  - intros f. unfold check_future, future_before_checks.
    destruct (extract_section_by_keywords mda_text future_keywords None None)
      as [f'|] eqn:E; [|discriminate].
    destruct (length f' <? 200); [discriminate|].
    intros H. injection H as <-.
    unfold extract_section_by_keywords in E.
    destruct (first_some (fun kw => re_search (re_keyword_heading kw) mda_text)
                future_keywords) as [m|].
    + unfold slice_first_level in E. cbn [truthy_list] in E.
      eapply ordinal_slice_piece; eauto.
    + destruct (first_some (fun kw => re_search (re_keyword_bracket kw) mda_text)
                  future_keywords) as [m|]; [|discriminate E].
      unfold slice_bracket in E.
      destruct (_slice_to_next_bracket_heading mda_text (Some (Z.of_nat (m_start m))))
        as [[|c sl]|] eqn:B; injection E as <-;
        try apply strip_slice_from_piece.
      eapply bracket_slice_piece; eauto.
Qed.

Lemma mda_sections_are_pieces_witness :
  (forall b, business result_toc_41 = Some b -> piece_of b (full_mda result_toc_41))
  /\ (forall f, future result_toc_41 = Some f -> piece_of f (full_mda result_toc_41)).
Proof.
  apply (@mda_sections_are_pieces report_toc_41). vm_compute. reflexivity.
Defined.

(** If the full section text of a result holds the section-three marker,
    it begins with "第三节": what came before the marker is cut off. *)
Theorem full_text_opens_with_marker (pdf_path : pdf) (r : mda) :
  extract_mda pdf_path = Some r ->
  is_some (re_search re_section_three (full_mda r)) = true ->
  startswith (U "第三节") (full_mda r) = true.
Proof.
  unfold extract_mda.
  destruct (locate_start pdf_path) as [start_page|]; [|discriminate].
  destruct (captured_text pdf_path start_page) as [mda_text|] eqn:C; [|discriminate].
  intros H. injection H as <-. cbn [full_mda].
  unfold captured_text in C.
  destruct (truthy (capture_pages _ _ _)); [|discriminate C].
  injection C as <-.
  destruct (re_search re_section_three
              (capture_pages pdf_path (range start_page (start_page + 200)) []))
    as [m3|] eqn:E.
  - intros _. eapply crop_opens_with_marker; eauto.
  - unfold crop_to_section_three. rewrite E. rewrite E. discriminate.
Qed.

Lemma full_text_opens_with_marker_witness :
  startswith (U "第三节") (full_mda result_toc_41) = true.
Proof.
  apply (@full_text_opens_with_marker report_toc_41).
  - vm_compute. reflexivity.
  - vm_compute. reflexivity.
Defined.

(** ** Markup of a block *)

Lemma escape_chars (s : str) (x : char) :
  In x (escape s) -> x <> 60%N /\ x <> 62%N.
Proof.
  unfold escape.
  change (U "<") with [60%N]. change (U ">") with [62%N]. change (U "&") with [38%N].
  intros H. apply replace_single_chars in H as [H|[H H60]].
  - vm_compute in H. intuition (subst; discriminate).
  - split; [exact H60|].
    apply replace_single_chars in H as [H|[_ H62]]; [|exact H62].
    vm_compute in H. intuition (subst; discriminate).
Qed.

Lemma html_line_chars (ln : str) (x : char) :
  In x (html_line ln) -> x <> 60%N /\ x <> 62%N.
Proof.
  unfold html_line. destruct (negb (truthy (strip ln))); [intros []|].
  destruct (is_some (re_match heading_re (strip ln))); [apply escape_chars|].
  intros H. apply in_app_or in H as [H|H]; [|now apply escape_chars in H].
  vm_compute in H. intuition (subst; discriminate).
Qed.

(** The markup of every block is a list of lines joined by "<br/>", and no
    line holds a raw "<" or ">": the only tags of the markup are the line
    breaks the code writes itself. *)
Theorem block_markup_is_escaped (text : option str) :
  exists ls : list str,
    safe_block text = Paragraph (join (U "<br/>") ls)
    /\ Forall (fun l => ~ In 60%N l /\ ~ In 62%N l) ls.
Proof.
  assert (P : exists ls : list str,
             placeholder = Paragraph (join (U "<br/>") ls)
             /\ Forall (fun l => ~ In 60%N l /\ ~ In 62%N l) ls).
  { exists [U "（未提取到内容）"]. split; [vm_compute; reflexivity|].
    constructor; [|constructor].
    split; intros H; vm_compute in H; intuition discriminate. }
  destruct text as [[|c t]|]; try exact P.
  unfold safe_block. eexists. split; [reflexivity|].
  apply Forall_forall. intros l Hl. apply in_map_iff in Hl as (ln & <- & _).
  split; intros H; apply html_line_chars in H; destruct H; congruence.
Qed.

(** ** Short lines that are not there *)

Lemma merge_loop_no_short (tmp : list str) :
  Forall (fun s => is_short s = false) tmp ->
  forall merged, merge_loop tmp merged [] = merged ++ tmp.
Proof.
  induction 1 as [|s tmp Hs _ IH]; intros merged; cbn [merge_loop].
  - cbn [flush_cells]. now rewrite app_nil_r.
  - rewrite Hs. cbn [flush_cells]. rewrite IH. now rewrite <- app_assoc.
Qed.

(** Lines that are not short (more than 6 characters, or ending in "。",
    "；", ";", "：" or ":") pass the short-line merge unchanged. *)
Theorem other_lines_pass_the_merge (tmp : list str) :
  Forall (fun s => is_short s = false) tmp -> merge_short_lines tmp = tmp.
Proof. intros H. unfold merge_short_lines. now rewrite merge_loop_no_short. Qed.

Lemma other_lines_pass_the_merge_witness :
  merge_short_lines [U "一、公司概况说明"; U "结束。"] = [U "一、公司概况说明"; U "结束。"].
Proof.
  apply other_lines_pass_the_merge.
  repeat (constructor; [vm_compute; reflexivity|]). constructor.
Defined.

Lemma merge_loop_length (tmp : list str) :
  forall merged buf,
    length (merge_loop tmp merged buf)
    <= length merged + length tmp + match buf with [] => 0 | _ => 1 end.
Proof.
  induction tmp as [|s tmp IH]; intros merged buf; cbn [merge_loop].
  - unfold flush_cells. destruct buf; [simpl; lia|].
    rewrite length_app. simpl. lia.
  - destruct (is_short s).
    + destruct (12 <=? length (buf ++ [s])).
      * etransitivity; [apply IH|]. unfold flush_cells.
        destruct (buf ++ [s]) eqn:B; [destruct buf; discriminate|].
        rewrite length_app. simpl. destruct buf; lia.
      * etransitivity; [apply IH|].
        destruct (buf ++ [s]) eqn:B; [destruct buf; discriminate|].
        simpl. destruct buf; lia.
    + etransitivity; [apply IH|]. rewrite length_app. unfold flush_cells.
      destruct buf; [simpl; lia|]. rewrite length_app. simpl. lia.
Qed.

(** The merge never gives more lines than it was given. *)
Theorem merge_never_adds_lines (tmp : list str) :
  length (merge_short_lines tmp) <= length tmp.
Proof.
  unfold merge_short_lines.
  etransitivity; [apply merge_loop_length|]. simpl. lia.
Qed.

(** ** Paragraphs *)

Lemma no_outer_blank_snoc (paras : list str) (x : str) :
  no_outer_blank paras -> truthy x = true -> no_outer_blank (paras ++ [x]).
Proof.
  intros [->|[Hh Hl]] Hx; right.
  - split; exact Hx.
  - split; [|now rewrite last_last].
    destruct paras; [discriminate Hh|exact Hh].
Qed.

Lemma flush_para_no_outer_blank (paras : list str) (buf : str) :
  no_outer_blank paras -> no_outer_blank (flush_para paras buf).
Proof.
  intros H. unfold flush_para.
  destruct (truthy (strip buf)) eqn:T; [|exact H].
  now apply no_outer_blank_snoc.
Qed.

Lemma heading_no_outer_blank (paras : list str) (s : str) :
  no_outer_blank paras -> truthy s = true ->
  no_outer_blank
    (match paras with
     | [] => paras
     | _ => if truthy (last paras []) then paras ++ [[]] else paras
     end ++ [s]).
Proof.
  intros [->|[Hh Hl]] Hs.
  - right. split; exact Hs.
  - destruct paras as [|p ps]; [discriminate Hh|].
    rewrite Hl. right. split.
    + exact Hh.
    + now rewrite last_last.
Qed.

Lemma reflow_loop_no_outer_blank (lines : list str) :
  forall paras buf,
    no_outer_blank paras -> no_outer_blank (reflow_loop lines paras buf).
Proof.
  induction lines as [|s lines IH]; intros paras buf H; cbn [reflow_loop].
  - now apply flush_para_no_outer_blank.
  - destruct (negb (truthy (strip s))) eqn:T.
    + apply IH. now apply flush_para_no_outer_blank.
    + apply negb_false_iff in T.
      destruct (is_some (re_match heading_re (strip s))).
      * apply IH. apply heading_no_outer_blank; [|exact T].
        now apply flush_para_no_outer_blank.
      * destruct (negb (truthy buf)); [now apply IH|].
        destruct (is_some (re_search end_punct_re buf)); apply IH;
          [now apply flush_para_no_outer_blank|exact H].
Qed.

Lemma drop_trailing_blank_id (paras : list str) :
  paras = [] \/ truthy (last paras []) = true -> drop_trailing_blank paras = paras.
Proof.
  induction paras as [|p ps IH]; intros H; [reflexivity|].
  cbn [drop_trailing_blank].
  destruct ps as [|q ps].
  - cbn [drop_trailing_blank]. destruct H as [H|H]; [discriminate H|].
    simpl in H. now rewrite H.
  - rewrite IH.
    + reflexivity.
    + right. destruct H as [H|H]; [discriminate H|]. exact H.
Qed.

(** The paragraphs the reflow builds never begin and never end with a
    blank one: a blank is only written between a paragraph and the heading
    that follows it.  The loop that removes trailing blanks finds none. *)
Theorem reflow_has_no_outer_blank (lines : list str) :
  no_outer_blank (reflow_loop lines [] [])
  /\ drop_trailing_blank (reflow_loop lines [] []) = reflow_loop lines [] [].
Proof.
  assert (H : no_outer_blank (reflow_loop lines [] [])).
  { apply reflow_loop_no_outer_blank. now left. }
  split; [exact H|].
  apply drop_trailing_blank_id. destruct H as [H|[_ H]]; [now left|now right].
Qed.

Lemma flush_para_keeps (paras : list str) (buf x : str) :
  In x paras -> In x (flush_para paras buf).
Proof.
  intros H. unfold flush_para. destruct (truthy (strip buf)); [|exact H].
  apply in_or_app. now left.
Qed.

Lemma reflow_loop_keeps (lines : list str) :
  forall paras buf x, In x paras -> In x (reflow_loop lines paras buf).
Proof.
  induction lines as [|s lines IH]; intros paras buf x H; cbn [reflow_loop].
  - now apply flush_para_keeps.
  - destruct (negb (truthy (strip s))); [apply IH; now apply flush_para_keeps|].
    destruct (is_some (re_match heading_re (strip s))).
    + apply IH. apply in_or_app. left.
      destruct (flush_para paras buf) as [|p ps] eqn:F.
      * pose proof (@flush_para_keeps paras buf x H) as K. rewrite F in K. destruct K.
      * rewrite <- F. destruct (truthy (last (flush_para paras buf) [])).
        -- apply in_or_app. left. now apply flush_para_keeps.
        -- now apply flush_para_keeps.
    + destruct (negb (truthy buf)); [now apply IH|].
      destruct (is_some (re_search end_punct_re buf)); apply IH;
        [now apply flush_para_keeps|exact H].
Qed.

(** A heading line is never joined to the text around it: every line that
    matches the heading pattern is, stripped, a paragraph of its own in
    the result. *)
Theorem headings_stand_alone (lines : list str) (s : str) :
  In s lines ->
  is_some (re_match heading_re (strip s)) = true ->
  In (strip s) (reflow_loop lines [] []).
Proof.
  intros Hin Hh.
  assert (T : truthy (strip s) = true).
  { destruct (strip s); [discriminate Hh|reflexivity]. }
  generalize (@nil (list N)) as paras. generalize (@nil N) as buf.
  induction lines as [|l lines IH]; intros buf paras; [destruct Hin|].
  cbn [reflow_loop]. destruct Hin as [->|Hin].
  - rewrite T, Hh. cbn [negb]. apply reflow_loop_keeps.
    apply in_or_app. right. now left.
  - destruct (negb (truthy (strip l))); [now apply IH|].
    destruct (is_some (re_match heading_re (strip l))); [now apply IH|].
    destruct (negb (truthy buf)); [now apply IH|].
    destruct (is_some (re_search end_punct_re buf)); now apply IH.
Qed.

Lemma headings_stand_alone_witness :
  In (strip (U " （一）小节 "))
     (reflow_loop [U "正文开头"; U " （一）小节 "; U "正文结尾。"] [] []).
Proof.
  apply headings_stand_alone.
  - right. now left.
  - vm_compute. reflexivity.
Defined.

(** ** Soft breaks *)

Lemma match_at_grp_plus (g : nat) (cls : char -> bool) (pos : nat) (rest : str) :
  match_at (Grp g (Plus cls)) pos rest =
    match run_len cls rest None with
    | O => None
    | S n => Some (MatchObj pos (pos + S n) [(g, (pos, pos + S n))])
    end.
Proof.
  unfold match_at, Plus. cbn [rmatch].
  destruct (run_len cls rest None) as [|n]; [reflexivity|].
  cbn [Nat.ltb Nat.leb]. now apply try_down_first.
Qed.

Lemma finditer_grp_plus_ordered (g : nat) (cls : char -> bool) (fuel : nat) :
  forall pos rest, ordered pos (finditer_from (Grp g (Plus cls)) fuel pos rest).
Proof.
  induction fuel as [|fuel IH]; intros pos rest; cbn [finditer_from]; [exact I|].
  destruct (search_from (Grp g (Plus cls)) pos rest) as [m|] eqn:E; [|exact I].
  apply search_from_sound in E as (k & Hs & Hm).
  rewrite match_at_grp_plus in Hm.
  destruct (run_len cls (skipn k rest) None) as [|n]; [discriminate Hm|].
  injection Hm as <-. cbn [m_start m_end ordered].
  assert (E : (pos + k + S n =? pos + k) = false) by (apply Nat.eqb_neq; lia).
  rewrite E. repeat split; try lia. apply IH.
Qed.

Lemma slice_skipn (t : str) (a b : nat) :
  a <= b -> slice t a b ++ skipn b t = skipn a t.
Proof.
  intros H. unfold slice.
  replace (skipn b t) with (skipn (b - a) (skipn a t)).
  - apply firstn_skipn.
  - rewrite skipn_skipn. f_equal. lia.
Qed.

Lemma split_at_concat (t : str) (ms : list match_obj) :
  forall pos, ordered pos ms -> concat (split_at t pos ms) = skipn pos t.
Proof.
  induction ms as [|m ms IH]; intros pos H; cbn [split_at concat].
  - unfold slice_from. apply app_nil_r.
  - destruct H as (H1 & H2 & H3). rewrite IH by assumption.
    rewrite slice_skipn by assumption. now apply slice_skipn.
Qed.

(** The pieces [re.split(r"(\s+)", t)] gives make up [t]. *)
Lemma re_split_concat (t : str) : concat (re_split (Grp 1 (Plus is_space)) t) = t.
Proof.
  unfold re_split, re_finditer. rewrite split_at_concat; [reflexivity|].
  apply finditer_grp_plus_ordered.
Qed.

Lemma split_at_chars (t : str) (ms : list match_obj) :
  forall pos p c, In p (split_at t pos ms) -> In c p -> In c t.
Proof.
  assert (S : forall a b c, In c (slice t a b) -> In c t).
  { intros a b c H. destruct (slice_piece t a b) as (pre & post & E).
    rewrite E. apply in_or_app. right. apply in_or_app. now left. }
  induction ms as [|m ms IH]; intros pos p c; cbn [split_at].
  - intros [<-|[]] H. destruct (slice_from_piece t pos) as (pre & post & E).
    rewrite E. apply in_or_app. right. apply in_or_app. now left.
  - intros [<-|[<-|H]]; eauto.
Qed.

Lemma pair_induction (A : Type) (P : list A -> Prop) :
  P [] -> (forall x, P [x]) -> (forall x y l, P l -> P (x :: y :: l)) ->
  forall l, P l.
Proof.
  intros H0 H1 H2 l.
  assert (H : P l /\ forall x, P (x :: l)).
  { induction l as [|a l [IHl IHx]]; split; auto. }
  apply H.
Qed.

Lemma chunks_concat (step : nat) :
  1 <= step ->
  forall fuel tok, length tok <= fuel -> concat (chunks fuel step tok) = tok.
Proof.
  intros Hstep. induction fuel as [|fuel IH]; intros tok Hlen.
  - destruct tok; [reflexivity|simpl in Hlen; lia].
  - destruct tok as [|c tok]; [reflexivity|].
    cbn [chunks concat]. rewrite IH.
    + apply firstn_skipn.
    + rewrite length_skipn. cbn [length] in *. lia.
Qed.

Lemma join_zwsp_visible (cs : list str) :
  filter visible (join [ZWSP] cs) = filter visible (concat cs).
Proof.
  induction cs as [|c cs IH]; [reflexivity|].
  destruct cs as [|c2 cs].
  - cbn [join concat]. now rewrite app_nil_r.
  - rewrite join_cons. cbn [concat] in *. rewrite !filter_app, IH.
    rewrite filter_app. reflexivity.
Qed.

Lemma soften_token_visible (tok : str) :
  filter visible (_soften_token tok) = filter visible tok.
Proof.
  unfold _soften_token. destruct (length tok <? 25); [reflexivity|].
  destruct (is_some (re_fullmatch (Plus url_char) tok)); [|reflexivity].
  rewrite join_zwsp_visible, chunks_concat; [reflexivity|lia|lia].
Qed.

(** Softening only adds zero-width spaces: with these left out, the line
    reads as before. *)
Theorem soften_keeps_visible_text (line : str) :
  filter visible (soften_long_tokens line) = filter visible line.
Proof.
  unfold soften_long_tokens.
  rewrite <- (re_split_concat line) at 2.
  generalize (re_split (Grp 1 (Plus is_space)) line). intros parts.
  induction parts as [|x|x y parts IH] using pair_induction.
  - reflexivity.
  - cbn [map_even concat]. rewrite !app_nil_r. apply soften_token_visible.
  - cbn [map_even concat]. rewrite !filter_app, IH, soften_token_visible.
    reflexivity.
Qed.

Lemma soften_token_not_url (tok : str) :
  (forall c, In c tok -> url_char c = false) -> _soften_token tok = tok.
Proof.
  intros H. unfold _soften_token. destruct (length tok <? 25); [reflexivity|].
  destruct tok as [|c tok]; [reflexivity|].
  unfold re_fullmatch, Plus. cbn [rmatch run_len].
  now rewrite (H c (or_introl eq_refl)).
Qed.

(** A line without ASCII letters, digits and "_", "\", ".", "/", "-" is
    left as it is, however long its words are: Chinese text is never
    broken by zero-width spaces. *)
Theorem soften_leaves_other_text_alone (line : str) :
  (forall c, In c line -> url_char c = false) -> soften_long_tokens line = line.
Proof.
  intros H. unfold soften_long_tokens.
  rewrite <- (re_split_concat line) at 2.
  assert (Hp : forall p c, In p (re_split (Grp 1 (Plus is_space)) line) ->
                           In c p -> url_char c = false).
  { intros p c Hp Hc. apply H. eapply split_at_chars; eauto. }
  revert Hp. generalize (re_split (Grp 1 (Plus is_space)) line). intros parts.
  induction parts as [|x|x y parts IH] using pair_induction; intros Hp.
  - reflexivity.
  - cbn [map_even]. rewrite soften_token_not_url; [reflexivity|].
    intros c Hc. apply (Hp x c); [now left|exact Hc].
  - cbn [map_even concat]. rewrite IH.
    + rewrite soften_token_not_url; [reflexivity|].
      intros c Hc. apply (Hp x c); [now left|exact Hc].
    + intros p c Hin Hc. apply (Hp p c); [now right; right|exact Hc].
Qed.

Lemma soften_leaves_other_text_alone_witness :
  soften_long_tokens (U "公司始终坚持稳健经营的方针并持续加大研发投入以提升核心竞争力")
  = U "公司始终坚持稳健经营的方针并持续加大研发投入以提升核心竞争力".
Proof.
  apply soften_leaves_other_text_alone.
  intros c Hc. vm_compute in Hc.
  repeat (destruct Hc as [<-|Hc]; [reflexivity|]). destruct Hc.
Defined.

(** ** Splitting and joining *)

Lemma split_not_nil (sep : char) (t : str) : split sep t <> [].
Proof.
  destruct t as [|c t]; cbn [split]; [discriminate|].
  destruct (chr_eqb c sep); [discriminate|].
  destruct (split sep t); discriminate.
Qed.

(** Joining the parts of a split with the separator gives the text back. *)
Lemma join_split (sep : char) (t : str) : join [sep] (split sep t) = t.
Proof.
  induction t as [|c t IH]; [reflexivity|]. cbn [split].
  destruct (chr_eqb c sep) eqn:E.
  - apply N.eqb_eq in E. subst c.
    destruct (split sep t) as [|l ls] eqn:S; [now apply split_not_nil in S|].
    rewrite join_cons, IH. reflexivity.
  - destruct (split sep t) as [|l ls] eqn:S; [now apply split_not_nil in S|].
    destruct ls as [|l2 ls].
    + cbn [join] in *. now rewrite IH.
    + rewrite <- IH. reflexivity.
Qed.

Lemma split_parts_chars (sep : char) (t : str) :
  forall (l : str) (x : char), In l (split sep t) -> In x l -> In x t /\ x <> sep.
Proof.
  induction t as [|c t IH]; intros l x; cbn [split].
  - intros [<-|[]] [].
  - destruct (chr_eqb c sep) eqn:E.
    + intros [<-|Hl] Hx; [destruct Hx|].
      destruct (IH l x Hl Hx). split; [now right|assumption].
    + apply N.eqb_neq in E. destruct (split sep t) as [|l0 ls] eqn:S.
      * intros [<-|[]] [<-|[]]. split; [now left|assumption].
      * intros [<-|Hl] Hx.
        -- destruct Hx as [<-|Hx]; [split; [now left|assumption]|].
           destruct (IH l0 x (or_introl eq_refl) Hx). split; [now right|assumption].
        -- destruct (IH l x (or_intror Hl) Hx). split; [now right|assumption].
Qed.

Lemma join_ends_with_last (c : char) (L : list str) :
  L <> [] ->
  join [c] L = last L []
  \/ exists pre, join [c] L = (pre ++ [c]) ++ last L [].
Proof.
  induction L as [|p L IH]; intros Hne; [congruence|].
  destruct L as [|p2 L]; [now left|].
  right. rewrite join_cons.
  destruct IH as [E|[pre E]]; [discriminate| |].
  - exists p. rewrite E. now rewrite <- app_assoc.
  - exists (p ++ [c] ++ pre). rewrite E.
    change (last (p :: p2 :: L) []) with (last (p2 :: L) []).
    now rewrite <- !app_assoc.
Qed.

(** ** The downloaded file's name *)

(** The file name taken from an announcement's URL holds no "/", and the
    URL is that name alone or ends with "/" followed by that name: no
    directory part of the URL reaches the path of the download. *)
Theorem file_name_is_last_component (adj_url : str) :
  ~ In 47%N (file_name_of adj_url)
  /\ (adj_url = file_name_of adj_url
      \/ exists pre, adj_url = (pre ++ [47%N]) ++ file_name_of adj_url).
Proof.
  unfold file_name_of. split.
  - intros H.
    assert (Hl : In (last (split 47%N adj_url) []) (split 47%N adj_url)).
    { pose proof (split_not_nil 47%N adj_url) as Hne.
      destruct (exists_last Hne) as (L & x & E). rewrite E, last_last.
      apply in_or_app. right. now left. }
    destruct (split_parts_chars _ _ _ _ Hl H) as [_ Hne]. congruence.
  - destruct (@join_ends_with_last 47%N (split 47%N adj_url) (split_not_nil 47%N adj_url))
      as [E|[pre E]]; rewrite join_split in E; [now left|right; now exists pre].
Qed.

(** ** The recipients *)

Lemma join_parts (sep : str) (L : list str) (x : char) :
  In x (join sep L) -> In x sep \/ exists l, In l L /\ In x l.
Proof.
  induction L as [|p L IH]; [intros []|].
  destruct L as [|p2 L].
  - cbn [join]. intros H. right. exists p. split; [now left|assumption].
  - rewrite join_cons. intros H. apply in_app_or in H as [H|H].
    + right. exists p. split; [now left|assumption].
    + apply in_app_or in H as [H|H]; [now left|].
      apply IH in H as [H|(l & Hl & Hx)]; [now left|].
      right. exists l. split; [now right|assumption].
Qed.

Lemma flat_map_unchanged (c : char) (new l : str) :
  ~ In c l -> flat_map (fun x => if chr_eqb c x then new else [x]) l = l.
Proof.
  induction l as [|a l IH]; intros H; [reflexivity|]. cbn [flat_map].
  assert (E : chr_eqb c a = false).
  { apply N.eqb_neq. intros ->. apply H. now left. }
  rewrite E, IH; [reflexivity|]. intros Hin. apply H. now right.
Qed.

Lemma recipients_ok (to_raw p : str) : In p (recipients to_raw) -> address_ok p.
Proof.
  unfold recipients. intros H. apply filter_In in H as [H T].
  apply in_map_iff in H as (part & <- & Hpart).
  assert (Hch : forall x, In x (strip part) -> x <> 44%N /\ x <> 59%N /\ x <> SP).
  { intros x Hx. apply strip_chars in Hx.
    destruct (split_parts_chars _ _ _ _ Hpart Hx) as [Hin H44].
    split; [exact H44|].
    change (U ",") with [44%N] in Hin. change (U ";") with [59%N] in Hin.
    apply replace_single_chars in Hin as [[<-|[]]|[Hin Hsp]]; [congruence|].
    split; [|exact Hsp].
    apply replace_single_chars in Hin as [[<-|[]]|[_ H59]]; [congruence|exact H59]. }
  repeat split.
  - intros E. rewrite E in T. discriminate T.
  - apply strip_trimmed.
  - apply strip_trimmed.
  - intros Hx. now apply Hch in Hx.
  - intros Hx. now apply Hch in Hx.
  - intros Hx. now apply Hch in Hx.
Qed.

Lemma split_head_free (sep : char) (p q : str) :
  ~ In sep p -> split sep (p ++ sep :: q) = p :: split sep q.
Proof.
  induction p as [|c p IH]; intros Hp.
  - cbn [app split]. now rewrite N.eqb_refl.
  - cbn [app split].
    assert (E : chr_eqb c sep = false).
    { apply N.eqb_neq. intros ->. apply Hp. now left. }
    rewrite E, IH; [reflexivity|]. intros H. apply Hp. now right.
Qed.

Lemma split_free (sep : char) (p : str) : ~ In sep p -> split sep p = [p].
Proof.
  induction p as [|c p IH]; intros Hp; [reflexivity|]. cbn [split].
  assert (E : chr_eqb c sep = false).
  { apply N.eqb_neq. intros ->. apply Hp. now left. }
  rewrite E, IH; [reflexivity|]. intros H. apply Hp. now right.
Qed.

Lemma recipients_of_joined (L : list str) :
  Forall address_ok L -> recipients (join (U ", ") L) = L.
Proof.
  intros HL. unfold recipients.
  change (U ", ") with [44%N; SP]. change (U ",") with [44%N].
  change (U ";") with [59%N].
  rewrite (replace_absent 59%N [] [44%N]).
  2:{ intros H. apply join_parts in H as [[H|[H|[]]]|(l & Hl & Hx)];
        try discriminate H.
      rewrite Forall_forall in HL. now destruct (HL l Hl) as (_ & _ & _ & H59 & _). }
  rewrite replace_single.
  induction HL as [|p L Hp HL IH]; [reflexivity|].
  destruct Hp as (Hne & Htr & H44 & _ & Hsp).
  assert (Hkeep : truthy (strip p) = true /\ strip p = p).
  { rewrite (trimmed_strip Htr). split; [|reflexivity].
    destruct p; [congruence|reflexivity]. }
  destruct Hkeep as [Tp Sp].
  destruct L as [|p2 L].
  - cbn [join]. rewrite flat_map_unchanged by assumption.
    rewrite split_free by assumption. cbn [map filter]. now rewrite Tp, Sp.
  - rewrite join_cons, !flat_map_app, flat_map_unchanged by assumption.
    cbn [flat_map app]. change (chr_eqb SP 44) with false.
    change (chr_eqb SP SP) with true. cbn iota. cbn [app].
    rewrite split_head_free by assumption.
    cbn [split]. change (chr_eqb 44 44) with true. cbn iota.
    cbn [map filter]. rewrite Tp, Sp.
    change (strip []) with (@nil N). cbn [truthy]. f_equal. exact IH.
Qed.

(** Every recipient read from the configuration is not empty, has no white
    space at its ends and holds no comma, semicolon or space. *)
Theorem recipients_are_clean (to_raw p : str) :
  In p (recipients to_raw) ->
  p <> [] /\ strip p = p /\ ~ In 44%N p /\ ~ In 59%N p /\ ~ In SP p.
Proof.
  intros H. destruct (recipients_ok _ _ H) as (Hne & Htr & H44 & H59 & Hsp).
  repeat split; try assumption. now apply trimmed_strip.
Qed.

Lemma recipients_are_clean_witness :
  U "b@y.org" <> [] /\ strip (U "b@y.org") = U "b@y.org"
  /\ ~ In 44%N (U "b@y.org") /\ ~ In 59%N (U "b@y.org") /\ ~ In SP (U "b@y.org").
Proof.
  apply (@recipients_are_clean (U "a@x.com; b@y.org  c@z.net,")).
  vm_compute. right. now left.
Defined.

(** The address line written for the recipients reads back as the same
    recipients: parsing [", ".join(to_list)] gives [to_list] again. *)
Theorem recipients_round_trip (to_raw : str) :
  recipients (to_addr_of (recipients to_raw)) = recipients to_raw.
Proof.
  unfold to_addr_of. apply recipients_of_joined.
  apply Forall_forall. intros p Hp. eapply recipients_ok; eauto.
Qed.

(** ** The report year *)

(** A pattern without groups hands the captures on as they are. *)
Lemma rmatch_group_free (A : Type) (P : A -> Prop) (r : regex) :
  group_free r = true ->
  forall (p : nat) (rest : str) (caps : captures)
         (k : nat -> str -> captures -> option A) (x : A),
    (forall p' rest', k p' rest' caps = Some x -> P x) ->
    rmatch r p rest caps k = Some x -> P x.
Proof.
  induction r; intros G p rest caps k x Hk; cbn [rmatch]; cbn [group_free] in G.
  - destruct (startswith s rest); [apply Hk|discriminate].
  - destruct (run_len cls rest hi <? lo); [discriminate|].
    apply try_down_inv. intros j. apply Hk.
  - destruct (p =? 0); [apply Hk|discriminate].
  - destruct rest as [|c [|d rest]]; try discriminate; [apply Hk|].
    destruct (chr_eqb c LF); [apply Hk|discriminate].
  - apply andb_true_iff in G as [G1 G2].
    apply IHr1; [exact G1|]. intros p' rest'. apply IHr2; [exact G2|exact Hk].
  - apply andb_true_iff in G as [G1 G2].
    destruct (rmatch r1 p rest caps k) eqn:E1.
    + intros E. apply (IHr1 G1 p rest caps k x Hk). congruence.
    + apply IHr2; assumption.
  - discriminate G.
Qed.

Lemma run_len_cap_zero (cls : char -> bool) (rest : str) :
  run_len cls rest (Some 0) = 0.
Proof. destruct rest as [|c rest]; cbn [run_len]; [|destruct (cls c)]; reflexivity. Qed.

(** What a match of [(20\d{2})] means: "20", two decimal digits, and the
    group set to these four characters. *)
Lemma year_group_match (A : Type) (pos : nat) (rest : str)
    (k : nat -> str -> captures -> option A) (x : A) :
  rmatch year_group pos rest [] k = Some x ->
  exists d1 d2 tl,
    rest = 50%N :: 48%N :: d1 :: d2 :: tl
    /\ is_decimal d1 = true /\ is_decimal d2 = true
    /\ k (pos + 4) tl [(1, (pos, pos + 4))] = Some x.
Proof.
  unfold year_group. change (U "20") with [50%N; 48%N].
  cbn [rmatch length].
  destruct rest as [|a [|b rest]]; cbn [startswith].
  - discriminate.
  - rewrite andb_false_r. discriminate.
  - rewrite andb_true_r.
    destruct (chr_eqb 50 a) eqn:Ea; [|discriminate].
    destruct (chr_eqb 48 b) eqn:Eb; [|discriminate].
    apply N.eqb_eq in Ea, Eb. subst a b. cbn [andb skipn].
    destruct rest as [|d1 [|d2 tl]]; cbn [run_len]; try discriminate.
    + destruct (is_decimal d1); discriminate.
    + destruct (is_decimal d1) eqn:D1; [|discriminate].
      destruct (is_decimal d2) eqn:D2; [|discriminate].
      rewrite run_len_cap_zero.
      cbn [Nat.ltb Nat.leb try_down skipn].
      replace (pos + 2 + 2) with (pos + 4) by lia.
      destruct (k (pos + 4) tl [(1, (pos, pos + 4))]) as [y|] eqn:K; [|discriminate].
      intros E. injection E as <-. exists d1, d2, tl. now repeat split.
Qed.

Lemma digit_value_below_ten (c : char) : digit_value c < 10.
Proof.
  unfold digit_value. destruct (find _ decimal_ranges) as [r|]; [|lia].
  assert (H : ((c - fst r) mod 10 < 10)%N) by (apply N.mod_lt; discriminate).
  lia.
Qed.

Lemma year_of_digits (d1 d2 : char) :
  2000 <= int_of_digits [50%N; 48%N; d1; d2] <= 2099.
Proof.
  unfold int_of_digits. cbn [fold_left].
  change (digit_value 50) with 2. change (digit_value 48) with 0.
  pose proof (digit_value_below_ten d1). pose proof (digit_value_below_ten d2).
  lia.
Qed.

Lemma group_of_year (title : str) (k0 : nat) (m : match_obj) (d1 d2 : char) (tl : str) :
  skipn k0 title = 50%N :: 48%N :: d1 :: d2 :: tl ->
  m_caps m = [(1, (k0, k0 + 4))] ->
  group title m 1 = [50%N; 48%N; d1; d2].
Proof.
  intros Hs Hc. unfold group, slice. rewrite Hc. cbn [find fst Nat.eqb].
  rewrite Hs. replace (k0 + 4 - k0) with 4 by lia. reflexivity.
Qed.

(** A title the announcement loop accepts holds "年度报告" and no "摘要",
    and the year read from it lies between 2000 and 2099. *)
Theorem report_year_in_range (title : str) (year : nat) :
  report_year title = Some year ->
  2000 <= year <= 2099
  /\ str_in (U "年度报告") title = true
  /\ str_in (U "摘要") title = false.
Proof.
  unfold report_year.
  destruct (str_in (U "年度报告") title) eqn:R; [|discriminate]. cbn [negb].
  destruct (str_in (U "摘要") title) eqn:Z; [discriminate|].
  destruct (str_in (U "关于") title
            && negb (str_in (U "年度报告") (before_first (U "关于") title)));
    [discriminate|].
  intros H. split; [|now split].
  destruct (re_search re_report_year title) as [m|] eqn:E.
  - injection H as <-.
    apply search_from_sound in E as (k0 & Hs & Hm). clear Hs.
    unfold match_at, re_report_year in Hm.
    change (Seq [year_group; Star is_space; Alt (Lit (U "年")) (Lit []);
                 Star is_space; Lit (U "年度报告")])
      with (Cat year_group
              (Seq [Star is_space; Alt (Lit (U "年")) (Lit []); Star is_space;
                    Lit (U "年度报告")])) in Hm.
    remember (Seq [Star is_space; Alt (Lit (U "年")) (Lit []); Star is_space;
                   Lit (U "年度报告")]) as tail_re eqn:Et.
    cbn [rmatch] in Hm.
    apply year_group_match in Hm as (d1 & d2 & tl & Hrest & _ & _ & Hk).
    cbv beta in Hk.
    assert (Hc : m_caps m = [(1, (0 + k0, 0 + k0 + 4))]).
    { revert Hk.
      apply (@rmatch_group_free _ (fun x => m_caps x = [(1, (0 + k0, 0 + k0 + 4))])
               tail_re).
      - subst tail_re. reflexivity.
      - intros p' rest' K. injection K as <-. reflexivity. }
    rewrite (@group_of_year title k0 m d1 d2 tl Hrest Hc). apply year_of_digits.
  - destruct (re_match re_leading_year title) as [m0|] eqn:E0; [|discriminate H].
    injection H as <-.
    unfold re_match, match_at, re_leading_year in E0. cbn [rmatch Nat.eqb] in E0.
    apply year_group_match in E0 as (d1 & d2 & tl & Hrest & _ & _ & Hk).
    cbv beta in Hk. injection Hk as <-.
    rewrite (@group_of_year title 0 (MatchObj 0 4 [(1, (0, 4))]) d1 d2 tl Hrest eq_refl).
    apply year_of_digits.
Qed.

Lemma report_year_in_range_witness :
  2000 <= 2024 <= 2099
  /\ str_in (U "年度报告") (U "贵州茅台2024年年度报告") = true
  /\ str_in (U "摘要") (U "贵州茅台2024年年度报告") = false.
Proof.
  apply report_year_in_range. vm_compute. reflexivity.
Defined.

Lemma startswith_app (p rest : str) : startswith p (p ++ rest) = true.
Proof.
  induction p as [|x p IH]; [reflexivity|].
  cbn [app startswith]. unfold chr_eqb. now rewrite N.eqb_refl, IH.
Qed.

Lemma startswith_firstn (p t : str) (k : nat) :
  startswith p (firstn k t) = true -> startswith p t = true.
Proof.
  revert t k. induction p as [|x p IH]; intros t k H; [reflexivity|].
  destruct k as [|k]; [destruct t; discriminate H|].
  destruct t as [|y t]; [discriminate H|].
  cbn [firstn startswith] in *.
  apply andb_true_iff in H as [H1 H2]. now rewrite H1, (IH _ _ H2).
Qed.

Lemma str_in_firstn (p t : str) (k : nat) :
  str_in p (firstn k t) = true -> str_in p t = true.
Proof.
  revert k. induction t as [|y t IH]; intros k H.
  - now rewrite firstn_nil in H.
  - destruct k as [|k].
    + cbn [firstn str_in] in H. rewrite orb_false_r in H.
      destruct p; [reflexivity|discriminate H].
    + cbn [firstn str_in] in *. apply orb_true_iff in H as [H|H].
      * apply (startswith_firstn p (y :: t) (S k)) in H. now rewrite H.
      * rewrite (IH _ H). apply orb_true_r.
Qed.

Lemma before_first_prefix (sep pre rest : str) :
  exists k : nat, before_first sep (pre ++ sep ++ rest) = firstn k pre.
Proof.
  induction pre as [|c pre [k IH]].
  - exists 0. cbn [app firstn]. destruct (sep ++ rest) as [|c t] eqn:E; [reflexivity|].
    cbn [before_first]. now rewrite <- E, startswith_app.
  - cbn [app before_first]. destruct (startswith sep (c :: pre ++ sep ++ rest)).
    + now exists 0.
    + exists (S k). cbn [firstn]. now rewrite IH.
Qed.

(** An announcement about a report is skipped: when nothing before a
    "关于" of the title reads "年度报告", no year comes out, whatever the
    title holds after it. *)
Theorem notices_about_reports_are_skipped (pre rest : str) :
  str_in (U "年度报告") pre = false ->
  report_year (pre ++ U "关于" ++ rest) = None.
Proof.
  intros H. unfold report_year.
  destruct (negb (str_in (U "年度报告") (pre ++ U "关于" ++ rest))); [reflexivity|].
  destruct (str_in (U "摘要") (pre ++ U "关于" ++ rest)); [reflexivity|].
  assert (A : str_in (U "关于") (pre ++ U "关于" ++ rest) = true).
  { clear H. induction pre as [|c pre IH].
    - cbn [app]. destruct (U "关于" ++ rest) as [|c t] eqn:E.
      + vm_compute in E. discriminate E.
      + cbn [str_in]. now rewrite <- E, startswith_app.
    - cbn [app str_in]. rewrite IH. apply orb_true_r. }
  assert (B : str_in (U "年度报告") (before_first (U "关于") (pre ++ U "关于" ++ rest)) = false).
  { destruct (before_first_prefix (U "关于") pre rest) as [k ->].
    destruct (str_in (U "年度报告") (firstn k pre)) eqn:E; [|reflexivity].
    apply str_in_firstn in E. congruence. }
  now rewrite A, B.
Qed.

Lemma notices_about_reports_are_skipped_witness :
  report_year (U "贵州茅台" ++ U "关于" ++ U "披露2024年年度报告的公告") = None.
Proof.
  apply notices_about_reports_are_skipped. vm_compute. reflexivity.
Defined.
